(** * Voice-controlled house security system: controller and device agents

    Shallow embedding of [app.py] (the controller: command interpreter,
    device-state store, status receive loop, voice-command handler) and of
    [iot_device.py] (the three simulated device agents, the command receive
    loop and the autonomous motion simulation), with the properties of the
    specification stated over them. *)

From Stdlib Require Import Bool List ZArith QArith Lia.
From Stdlib Require Import Strings.Ascii Strings.String.
Import ListNotations.

Local Open Scope string_scope.
Local Open Scope list_scope.
Local Open Scope bool_scope.

(** ** Python values and strings *)

Module Py.

(** The values [json.loads] can produce.  An object is kept as its list of
    members in document order; [JFloat] carries the value of a finite
    float. *)
#[local] Unset Elimination Schemes.
Inductive json : Type :=
| JNull
| JBool (b : bool)
| JInt (n : Z)
| JFloat (q : Q)
| JStr (s : string)
| JArr (items : list json)
| JObj (members : list (string * json)).
#[local] Set Elimination Schemes.

(** Truth value of a Python object, as tested by [or], [and], [not], [if]. *)
Definition truthy (v : json) : bool :=
  match v with
  | JNull => false
  | JBool b => b
  | JInt n => negb (n =? 0)%Z
  | JFloat q => negb (Qeq_bool q 0)
  | JStr s => negb (s =? EmptyString)
  | JArr items => match items with [] => false | _ :: _ => true end
  | JObj members => match members with [] => false | _ :: _ => true end
  end.

(** [dict.get(key)] on the dict built from an object: a key given twice
    keeps its last value, a key that is absent gives [None]. *)
Fixpoint dict_get (key : string) (members : list (string * json)) : json :=
  match members with
  | [] => JNull
  | (k, v) :: rest =>
      if existsb (fun kv => fst kv =? key) rest then dict_get key rest
      else if k =? key then v else JNull
  end.

(** A member is present in the object. *)
Definition has_key (key : string) (members : list (string * json)) : bool :=
  existsb (fun kv => fst kv =? key) members.

(** [str.lower] on one character of the ASCII range. *)
Definition lower_ascii (c : ascii) : ascii :=
  let n := nat_of_ascii c in
  if (65 <=? n)%nat && (n <=? 90)%nat then ascii_of_nat (n + 32) else c.

(** [str.lower].  Text is modelled as a string of ASCII characters. *)
Fixpoint lower (s : string) : string :=
  match s with
  | EmptyString => EmptyString
  | String c rest => String (lower_ascii c) (lower rest)
  end.

(** [str.upper] on one character of the ASCII range, and [str.upper]. *)
Definition upper_ascii (c : ascii) : ascii :=
  let n := nat_of_ascii c in
  if (97 <=? n)%nat && (n <=? 122)%nat then ascii_of_nat (n - 32) else c.

Fixpoint upper (s : string) : string :=
  match s with
  | EmptyString => EmptyString
  | String c rest => String (upper_ascii c) (upper rest)
  end.

(** [str.isascii]: every character is below 128.  On such text [lower] and
    [upper] are what [str.lower] and [str.upper] do. *)
Fixpoint is_ascii (s : string) : bool :=
  match s with
  | EmptyString => true
  | String c rest => (nat_of_ascii c <? 128)%nat && is_ascii rest
  end.

(** [needle in hay] on strings: [needle] occurs as a contiguous substring. *)
Fixpoint contains (needle hay : string) : bool :=
  String.prefix needle hay ||
  match hay with
  | EmptyString => false
  | String _ rest => contains needle rest
  end.

(** [any(k in text for k in keys)]. *)
Definition any_in (keys : list string) (text : string) : bool :=
  existsb (fun k => contains k text) keys.

(** [x in seq] for a sequence of string literals: only a string can be
    equal to one of them. *)
Definition in_strings (v : json) (seq : list string) : bool :=
  match v with
  | JStr s => existsb (String.eqb s) seq
  | _ => false
  end.

(** [v == s] for a string literal [s]. *)
Definition eq_str (v : json) (s : string) : bool :=
  match v with
  | JStr s' => s' =? s
  | _ => false
  end.

(** The words of a text: its longest runs of characters other than the
    blank. *)
Fixpoint words_aux (cur : string) (s : string) : list string :=
  match s with
  | EmptyString => match cur with EmptyString => [] | _ => [cur] end
  | String c rest =>
      if (c =? " ")%char
      then match cur with
           | EmptyString => words_aux EmptyString rest
           | _ => cur :: words_aux EmptyString rest
           end
      else words_aux (cur ++ String c EmptyString)%string rest
  end.

Definition words (s : string) : list string := words_aux EmptyString s.

(** [json.loads] gave a dict. *)
Definition is_object (v : json) : bool :=
  match v with
  | JObj _ => true
  | _ => false
  end.

(** The value can be hashed, so that it can be looked up in a dict. *)
Definition hashable (v : json) : bool :=
  match v with
  | JArr _ | JObj _ => false
  | _ => true
  end.

(** The exceptions the two programs can meet. *)
Inductive exn : Type :=
| JSONDecodeError
| UnicodeDecodeError
| AttributeError
| TypeError.

(** Outcome of a block of statements: it runs to its end or raises. *)
Inductive outcome : Type :=
| Completed
| Raised (e : exn).

(** An MQTT message as the receive callbacks see it: what
    [msg.payload.decode()] and then [json.loads] make of its bytes. *)
Inductive message : Type :=
| Undecodable
| NotJson (payload : string)
| Json (payload : string) (data : json).

End Py.

Import Py.

(** ** The controller, [app.py] *)

Module App.

(** One entry of [device_states]: [{"name": ..., "state": ...}].  The state
    is whatever value the last status message carried. *)
Record device_entry : Type := Entry { name : string; state : json }.

(** [device_states]: a dict, kept in insertion order. *)
Definition store : Type := list (string * device_entry).

Definition device_states : store :=
  [ ("door_lock_1", Entry "Front Door Lock" (JStr "locked"));
    ("alarm_system", Entry "Alarm System" (JStr "disarmed"));
    ("motion_sensor_1", Entry "Living Room Sensor" (JStr "inactive")) ].

(** [device_id in device_states]; a list or a dict is unhashable. *)
Definition known (device_id : json) (states : store) : bool + exn :=
  match device_id with
  | JStr k => inl (existsb (fun e => fst e =? k) states)
  | JArr _ | JObj _ => inr TypeError
  | _ => inl false
  end.

(** [device_states[device_id]], for a key that is present. *)
Fixpoint lookup (k : string) (states : store) : option device_entry :=
  match states with
  | [] => None
  | (k', e) :: rest => if k' =? k then Some e else lookup k rest
  end.

(** [device_states[device_id]["state"] = state]. *)
Fixpoint set_state (k : string) (v : json) (states : store) : store :=
  match states with
  | [] => []
  | (k', e) :: rest =>
      if k' =? k then (k', Entry (name e) v) :: rest
      else (k', e) :: set_state k v rest
  end.

(** A directive: [{"device": ..., "action": ...}], the device being [None]
    for a status query. *)
Record directive : Type := Directive { device : option string; action : string }.

(** The messages given to [log_event]; each is printed and sent to the
    dashboard as a [log_event] with a time stamp. *)
Inductive log_message : Type :=
| DeviceUpdated (device_name : string) (new_state : json)
| ReceivedVoiceCommand (text : json)
| CouldNotUnderstand (text : json)
| ProcessingStatusQuery
| StatusReport (statuses : list (string * json))
| NlpParsed (dev act : string)
| PublishedCommand (dev act : string)
| FailedToPublish.

(** Lines printed on the console by the MQTT callback. *)
Inductive console : Type :=
| ReceivedStatusUpdate (payload : string)
| MalformedJson
| ErrorProcessingMessage (e : exn).

(** What the controller does to the outside world. *)
Inductive effect : Type :=
| Stdout (line : console)
| LogEvent (m : log_message)
| EmitStatusUpdate (devices : store)
| Publish (device_id command : string).

(** *** [process_nlp] *)

(** The statements of [process_nlp] after its first line; [text] is already
    in lower case. *)
Definition process_nlp_rules (text : string) : list directive :=
  let commands := [] in
  let commands :=
    if contains "front door" text || contains "front-door" text then
      if contains "unlock" text then
        commands ++ [Directive (Some "door_lock_1") "unlock"]
      else if contains "lock" text then
        commands ++ [Directive (Some "door_lock_1") "lock"]
      else commands
    else commands in
  let commands :=
    if contains "alarm" text then
      if contains "disarm" text then
        commands ++ [Directive (Some "alarm_system") "disarmed"]
      else if contains "arm" text then
        commands ++ [Directive (Some "alarm_system") "armed"]
      else commands
    else commands in
  let commands :=
    if contains "living room" text || contains "living-room" text then
      let commands :=
        if any_in ["activate"; "turn on"; "enable"; "on"] text then
          commands ++ [Directive (Some "motion_sensor_1") "active"]
        else commands in
      let commands :=
        if any_in ["deactivate"; "turn off"; "disable"; "off"] text then
          commands ++ [Directive (Some "motion_sensor_1") "inactive"]
        else commands in
      commands
    else commands in
  let commands :=
    if contains "status" text || contains "what is the status" text
       || contains "report" text then
      commands ++ [Directive None "query_status"]
    else commands in
  commands.

(** [process_nlp(text)].  Its first line, [(text or "").lower()], raises
    [AttributeError] on a true value that is not a string. *)
Definition process_nlp (text : json) : list directive + exn :=
  match text with
  | JStr s => inl (process_nlp_rules (lower s))
  | v => if truthy v then inr AttributeError
         else inl (process_nlp_rules (lower EmptyString))
  end.

(** *** [on_message]: the status receive loop *)

(** The [try] block of [on_message]: the store it leaves, what it did, and
    how it ended. *)
Definition on_message_try (states : store) (msg : message)
  : store * list effect * outcome :=
  match msg with
  | Undecodable => (states, [], Raised UnicodeDecodeError)
  | NotJson payload =>
      (states, [Stdout (ReceivedStatusUpdate payload)], Raised JSONDecodeError)
  | Json payload data =>
      let out := [Stdout (ReceivedStatusUpdate payload)] in
      match data with
      | JObj members =>
          let device_id := dict_get "device_id" members in
          let state := dict_get "state" members in
          match device_id, known device_id states with
          | _, inr e => (states, out, Raised e)
          | JStr k, inl true =>
              let states' := set_state k state states in
              let device_name :=
                match lookup k states' with
                | Some e => name e
                | None => EmptyString
                end in
              (states',
               out ++ [LogEvent (DeviceUpdated device_name state);
                       EmitStatusUpdate states'],
               Completed)
          | _, inl _ => (states, out, Completed)
          end
      | _ => (states, out, Raised AttributeError)
      end
  end.

(** [on_message]: the [try] block with its two [except] clauses. *)
Definition on_message (states : store) (msg : message)
  : store * list effect * outcome :=
  match on_message_try states msg with
  | (states', out, Completed) => (states', out, Completed)
  | (states', out, Raised JSONDecodeError) =>
      (states', out ++ [Stdout MalformedJson], Completed)
  | (states', out, Raised e) =>
      (states', out ++ [Stdout (ErrorProcessingMessage e)], Completed)
  end.

(** *** [handle_voice_command] *)

(** The statuses joined into the status report, in the order of the dict. *)
Definition status_report (states : store) : list (string * json) :=
  map (fun e => (name (snd e), state (snd e))) states.

(** First loop of the handler: one report for each status query. *)
Fixpoint report_queries (states : store) (results : list directive)
  : list effect :=
  match results with
  | [] => []
  | res :: rest =>
      (if action res =? "query_status"
       then [LogEvent ProcessingStatusQuery;
             LogEvent (StatusReport (status_report states))]
       else [])
      ++ report_queries states rest
  end.

(** [if device and action and action != "query_status"]. *)
Definition actionable (res : directive) : bool :=
  match device res with
  | Some dev =>
      negb (dev =? EmptyString) && negb (action res =? EmptyString)
      && negb (action res =? "query_status")
  | None => false
  end.

(** Second loop of the handler.  [transport] gives, for the successive
    calls of [mqtt_client.publish], whether the call returns ([true]) or
    raises ([false]); past its end the calls return. *)
Fixpoint publish_commands (transport : list bool) (results : list directive)
  : list effect :=
  match results with
  | [] => []
  | res :: rest =>
      match device res with
      | Some dev =>
          if actionable res then
            LogEvent (NlpParsed dev (action res))
            :: (if hd true transport
                then [Publish dev (action res);
                      LogEvent (PublishedCommand dev (action res))]
                else [LogEvent FailedToPublish])
            ++ publish_commands (tl transport) rest
          else publish_commands transport rest
      | None => publish_commands transport rest
      end
  end.

(** [handle_voice_command(data)]. *)
Definition handle_voice_command
  (states : store) (transport : list bool) (data : json)
  : list effect * outcome :=
  let text_command :=
    match data with
    | JObj members => dict_get "text" members
    | _ => JNull
    end in
  if negb (truthy text_command) then ([], Completed)
  else
    let out := [LogEvent (ReceivedVoiceCommand text_command)] in
    match process_nlp text_command with
    | inr e => (out, Raised e)
    | inl nlp_results =>
        match nlp_results with
        | [] => (out ++ [LogEvent (CouldNotUnderstand text_command)], Completed)
        | _ :: _ =>
            (out ++ report_queries states nlp_results
                 ++ publish_commands transport nlp_results,
             Completed)
        end
    end.

(** *** [normalize_action_to_state] *)

(** [normalize_action_to_state(device_id, action)]: each [return] inside an
    [if] is an answer, and a block that gives none falls to the next one. *)
Definition normalize_action_to_state (device_id action : json) : json :=
  let door :=
    if eq_str device_id "door_lock_1" then
      if eq_str action "unlock" then Some (JStr "unlocked")
      else if eq_str action "lock" then Some (JStr "locked")
      else if in_strings action ["locked"; "unlocked"] then Some action
      else None
    else None in
  match door with
  | Some answer => answer
  | None =>
      let alarm :=
        if eq_str device_id "alarm_system" then
          if in_strings action ["armed"; "disarmed"] then Some action else None
        else None in
      match alarm with
      | Some answer => answer
      | None =>
          let sensor :=
            if eq_str device_id "motion_sensor_1" then
              if in_strings action ["active"; "inactive"] then Some action
              else None
            else None in
          match sensor with
          | Some answer => answer
          | None => action
          end
      end
  end.

End App.

(** ** The device agents, [iot_device.py] *)

Module Devices.

(** A [SimulatedDevice]: its id and its state.  The state of an agent is
    always one of the string literals of the program. *)
Record agent : Type := Agent { device_id : string; state : string }.

(** Lines printed on the console. *)
Inductive console : Type :=
| PublishedStatus (id st : string)
| ChangingState (id from to : string)
| AlreadyIn (id st : string)
| UnsupportedCommand (id : string) (command : json)
| MotionDetected (id : string)
| ReceivedCommand (payload : string)
| UnknownDevice (id : json)
| MalformedJsonCommand
| ErrorProcessingCommand (e : exn).

(** What the agents do to the outside world: console lines, Status Events
    published on the status topic, and the waits of the simulation. *)
Inductive effect : Type :=
| Stdout (line : console)
| PublishStatus (id st : string)
| Sleep (seconds : Z).

(** [publish_status]: publish the state, then print it. *)
Definition publish_status (self : agent) : list effect :=
  [PublishStatus (device_id self) (state self);
   Stdout (PublishedStatus (device_id self) (state self))].

(** [DoorLock.process_command]. *)
Definition DoorLock_process_command (self : agent) (command : json)
  : agent * list effect :=
  if in_strings command ["lock"; "unlock"] then
    let new_state := if eq_str command "lock" then "locked" else "unlocked" in
    if negb (state self =? new_state) then
      let self' := Agent (device_id self) new_state in
      (self',
       Stdout (ChangingState (device_id self) (state self) new_state)
       :: publish_status self')
    else (self, [Stdout (AlreadyIn (device_id self) new_state)])
  else (self, []).

(** [AlarmSystem.process_command]; a command in the list is a string, and
    it becomes the state as it is. *)
Definition AlarmSystem_process_command (self : agent) (command : json)
  : agent * list effect :=
  if in_strings command ["armed"; "disarmed"] then
    match command with
    | JStr c =>
        if negb (state self =? c) then
          let self' := Agent (device_id self) c in
          (self',
           Stdout (ChangingState (device_id self) (state self) c)
           :: publish_status self')
        else (self, [Stdout (AlreadyIn (device_id self) c)])
    | _ => (self, [])
    end
  else (self, []).

(** Where the simulation thread of the motion sensor stands in
    [simulate_motion]: before the sleep at the head of the loop, before
    each of the three tests of its guard, before the print, the assignment
    and the [publish_status] of the activation, before the hold, and before
    the assignment and the [publish_status] of the return. *)
Inductive sim_point : Type :=
| Sleeping
| TestAlarm
| TestSensor
| Drawing
| Detected
| Activating
| PublishingActive
| Holding
| Resetting
| PublishingInactive.

(** The [devices] dict and the simulation thread.  The motion sensor's
    [self.alarm] is the [alarm_system] object of the dict. *)
Record world : Type := World {
  door_lock_1 : agent;
  alarm_system : agent;
  motion_sensor_1 : agent;
  simulation : sim_point
}.

Definition devices : world :=
  World (Agent "door_lock_1" "locked")
        (Agent "alarm_system" "disarmed")
        (Agent "motion_sensor_1" "inactive")
        Sleeping.

(** [random.random() < 0.3].  [random.random()] is [k / 2^53] for an
    integer [0 <= k < 2^53], and the float [0.3] is
    [5404319552844595 / 2^54]. *)
Definition below_0_3 (k : Z) : bool := (2 * k <? 5404319552844595)%Z.

(** The world with the simulation thread at another point. *)
Definition at_point (w : world) (p : sim_point) : world :=
  World (door_lock_1 w) (alarm_system w) (motion_sensor_1 w) p.

(** One step of [simulate_motion].  The thread holds no lock, so the
    command callback can run between any two of its steps: each step is
    one statement of the loop, and each test of the guard, which reads one
    attribute, is a step of its own.

    [Sleeping]: [time.sleep] of the [seconds] drawn by [random.randint].
    [TestAlarm], [TestSensor], [Drawing]: the three tests of the guard,
    left to right, the draw [k] of [random.random()] being the last; a test
    that fails sends the thread back to the head of the loop.
    [Detected]: the print.  [Activating]: [self.state = "active"].
    [PublishingActive]: [publish_status], which reads the state then.
    [Holding]: [time.sleep(5)].  [Resetting]: [self.state = "inactive"].
    [PublishingInactive]: [publish_status]. *)
Definition simulate_motion_step (w : world) (seconds k : Z)
  : world * list effect :=
  let self := motion_sensor_1 w in
  match simulation w with
  | Sleeping => (at_point w TestAlarm, [Sleep seconds])
  | TestAlarm =>
      if state (alarm_system w) =? "armed" then (at_point w TestSensor, [])
      else (at_point w Sleeping, [])
  | TestSensor =>
      if state self =? "inactive" then (at_point w Drawing, [])
      else (at_point w Sleeping, [])
  | Drawing =>
      if below_0_3 k then (at_point w Detected, [])
      else (at_point w Sleeping, [])
  | Detected =>
      (at_point w Activating, [Stdout (MotionDetected (device_id self))])
  | Activating =>
      (World (door_lock_1 w) (alarm_system w)
             (Agent (device_id self) "active") PublishingActive,
       [])
  | PublishingActive => (at_point w Holding, publish_status self)
  | Holding => (at_point w Resetting, [Sleep 5])
  | Resetting =>
      (World (door_lock_1 w) (alarm_system w)
             (Agent (device_id self) "inactive") PublishingInactive,
       [])
  | PublishingInactive => (at_point w Sleeping, publish_status self)
  end.

(** [SimulatedDevice.__init__]: the agent is made with its initial state
    and publishes it at once. *)
Definition SimulatedDevice_init (id initial_state : string)
  : agent * list effect :=
  let self := Agent id initial_state in
  (self, publish_status self).

(** The construction of the agents in the main script: the alarm first,
    then the door lock and the motion sensor as the dict is built.  The
    thread of the motion sensor starts at its first sleep. *)
Definition main : world * list effect :=
  let (alarm, out_alarm) := SimulatedDevice_init "alarm_system" "disarmed" in
  let (door, out_door) := SimulatedDevice_init "door_lock_1" "locked" in
  let (motion, out_motion) :=
    SimulatedDevice_init "motion_sensor_1" "inactive" in
  (World door alarm motion Sleeping, out_alarm ++ out_door ++ out_motion).

Section WithStr.

(** [str(v)] for a value that is not a string, left to the interpreter. *)
Variable str : json -> string.

(** [MotionSensor.process_command]. *)
Definition MotionSensor_process_command (self : agent) (command : json)
  : agent * list effect :=
  let cmd :=
    match command with
    | JStr c => lower c
    | v => if truthy v then lower (str v) else lower EmptyString
    end in
  let decided :=
    if existsb (String.eqb cmd) ["active"; "activate"; "on"; "enable"] then
      Some "active"
    else if existsb (String.eqb cmd)
              ["inactive"; "deactivate"; "off"; "disable"] then
      Some "inactive"
    else None in
  match decided with
  | None => (self, [Stdout (UnsupportedCommand (device_id self) command)])
  | Some new_state =>
      if negb (state self =? new_state) then
        let self' := Agent (device_id self) new_state in
        (self',
         Stdout (ChangingState (device_id self) (state self) new_state)
         :: publish_status self')
      else (self, [Stdout (AlreadyIn (device_id self) new_state)])
  end.

(** The [try] block of [on_message]: [devices[device_id]] is found by its
    key and its [process_command] is called. *)
Definition on_message_try (w : world) (msg : message)
  : world * list effect * outcome :=
  match msg with
  | Undecodable => (w, [], Raised UnicodeDecodeError)
  | NotJson payload =>
      (w, [Stdout (ReceivedCommand payload)], Raised JSONDecodeError)
  | Json payload data =>
      let out := [Stdout (ReceivedCommand payload)] in
      match data with
      | JObj members =>
          let id := dict_get "device_id" members in
          let command := dict_get "command" members in
          match id with
          | JArr _ | JObj _ => (w, out, Raised TypeError)
          | JStr k =>
              if k =? "door_lock_1" then
                let (a, eff) := DoorLock_process_command (door_lock_1 w) command in
                (World a (alarm_system w) (motion_sensor_1 w) (simulation w),
                 out ++ eff, Completed)
              else if k =? "alarm_system" then
                let (a, eff) := AlarmSystem_process_command (alarm_system w) command in
                (World (door_lock_1 w) a (motion_sensor_1 w) (simulation w),
                 out ++ eff, Completed)
              else if k =? "motion_sensor_1" then
                let (a, eff) := MotionSensor_process_command (motion_sensor_1 w) command in
                (World (door_lock_1 w) (alarm_system w) a (simulation w),
                 out ++ eff, Completed)
              else (w, out ++ [Stdout (UnknownDevice id)], Completed)
          | _ => (w, out ++ [Stdout (UnknownDevice id)], Completed)
          end
      | _ => (w, out, Raised AttributeError)
      end
  end.

(** [on_message]: the [try] block with its two [except] clauses. *)
Definition on_message (w : world) (msg : message)
  : world * list effect * outcome :=
  match on_message_try w msg with
  | (w', out, Completed) => (w', out, Completed)
  | (w', out, Raised JSONDecodeError) =>
      (w', out ++ [Stdout MalformedJsonCommand], Completed)
  | (w', out, Raised e) =>
      (w', out ++ [Stdout (ErrorProcessingCommand e)], Completed)
  end.

(** What happens next in the process: the network loop delivers a command
    message, or the simulation thread takes its next step, with the values
    its random draws give if the step is one that draws. *)
Inductive event : Type :=
| Deliver (msg : message)
| Simulate (seconds k : Z).

Definition step (w : world) (ev : event) : world * list effect :=
  match ev with
  | Deliver msg => let '(w', out, _) := on_message w msg in (w', out)
  | Simulate seconds k => simulate_motion_step w seconds k
  end.

(** A run of the process: for each event, the world before it and what it
    did, and the world at the end. *)
Fixpoint run (w : world) (evs : list event)
  : list (world * event * list effect) * world :=
  match evs with
  | [] => ([], w)
  | ev :: rest =>
      let (w', out) := step w ev in
      let (trace, final) := run w' rest in
      ((w, ev, out) :: trace, final)
  end.

End WithStr.

End Devices.

(** ** The rules of the specification, in its own words *)

Module Rules.

Import App.

(** A text mentions a keyword: it contains it, whatever the case of its
    letters. *)
Definition mentions (kw text : string) : bool := contains kw (lower text).

Definition front_door (text : string) : bool :=
  mentions "front door" text || mentions "front-door" text.

Definition living_room (text : string) : bool :=
  mentions "living room" text || mentions "living-room" text.

(** No recognized keyword: no front-door phrasing, no "alarm", no
    living-room phrasing, no "status" and no "report". *)
Definition no_keyword (text : string) : bool :=
  negb (front_door text) && negb (mentions "alarm" text)
  && negb (living_room text) && negb (mentions "status" text)
  && negb (mentions "report" text).

Definition unlock_door : directive := Directive (Some "door_lock_1") "unlock".
Definition lock_door : directive := Directive (Some "door_lock_1") "lock".
Definition disarm_alarm : directive := Directive (Some "alarm_system") "disarmed".
Definition arm_alarm : directive := Directive (Some "alarm_system") "armed".
Definition sensor_active : directive := Directive (Some "motion_sensor_1") "active".
Definition sensor_inactive : directive := Directive (Some "motion_sensor_1") "inactive".
Definition query_status : directive := Directive None "query_status".

(** The four rules of the interpreter, each on the lower-cased text. *)
Definition door_lock_rule (text : string) : list directive :=
  if contains "front door" text || contains "front-door" text then
    if contains "unlock" text then [unlock_door]
    else if contains "lock" text then [lock_door]
    else []
  else [].

Definition alarm_rule (text : string) : list directive :=
  if contains "alarm" text then
    if contains "disarm" text then [disarm_alarm]
    else if contains "arm" text then [arm_alarm]
    else []
  else [].

Definition motion_sensor_rule (text : string) : list directive :=
  if contains "living room" text || contains "living-room" text then
    (if any_in ["activate"; "turn on"; "enable"; "on"] text
     then [sensor_active] else [])
    ++ (if any_in ["deactivate"; "turn off"; "disable"; "off"] text
        then [sensor_inactive] else [])
  else [].

Definition status_rule (text : string) : list directive :=
  if contains "status" text || contains "report" text then [query_status]
  else [].

(** A turn-on phrase as words of the text: "activate", "turn on" or
    "enable" somewhere in it, or the word "on". *)
Definition turn_on_phrase (text : string) : bool :=
  mentions "activate" text || mentions "turn on" text
  || mentions "enable" text
  || existsb (String.eqb "on") (words (lower text)).

(** The notifications by which the controller tells a change of state: the
    state-update log entry and the [status_update] event. *)
Definition reports_change (out : list effect) : bool :=
  existsb (fun e => match e with
                    | LogEvent (DeviceUpdated _ _) => true
                    | EmitStatusUpdate _ => true
                    | _ => false
                    end) out.

(** The commands published by the controller. *)
Definition published (out : list effect) : list (string * string) :=
  flat_map (fun e => match e with
                     | Publish d c => [(d, c)]
                     | _ => []
                     end) out.

End Rules.

(** The transition table of the device agents, in the words of the
    specification. *)
Module Agents.

Import Devices.

Inductive kind : Type := DoorLock | AlarmSystem | MotionSensor.

(** The state an accepted command maps to. *)
Definition maps_to (k : kind) (c : string) : option string :=
  match k with
  | DoorLock =>
      if c =? "lock" then Some "locked"
      else if c =? "unlock" then Some "unlocked" else None
  | AlarmSystem =>
      if c =? "armed" then Some "armed"
      else if c =? "disarmed" then Some "disarmed" else None
  | MotionSensor =>
      if existsb (String.eqb c) ["active"; "activate"; "on"; "enable"]
      then Some "active"
      else if existsb (String.eqb c) ["inactive"; "deactivate"; "off"; "disable"]
      then Some "inactive" else None
  end.

(** [process_command] of the class of the agent. *)
Definition process_command (str : json -> string) (k : kind)
  : agent -> json -> agent * list effect :=
  match k with
  | DoorLock => DoorLock_process_command
  | AlarmSystem => AlarmSystem_process_command
  | MotionSensor => MotionSensor_process_command str
  end.

(** What an agent does once the state a command asks for is known. *)
Definition settle (self : agent) (new_state : string) : agent * list effect :=
  if state self =? new_state then
    (self, [Stdout (AlreadyIn (device_id self) new_state)])
  else
    (Agent (device_id self) new_state,
     [Stdout (ChangingState (device_id self) (state self) new_state);
      PublishStatus (device_id self) new_state;
      Stdout (PublishedStatus (device_id self) new_state)]).

(** The keys of the [devices] dict. *)
Definition device_ids : list string :=
  ["door_lock_1"; "alarm_system"; "motion_sensor_1"].

(** The Status Events among the effects. *)
Definition status_events (out : list effect) : list (string * string) :=
  flat_map (fun e => match e with
                     | PublishStatus id st => [(id, st)]
                     | _ => []
                     end) out.

(** An instance of [str] for running the agents on given messages: it
    renders [None], the Booleans and strings as Python does. *)
Definition plain_str (v : json) : string :=
  match v with
  | JNull => "None"
  | JBool true => "True"
  | JBool false => "False"
  | JStr s => s
  | _ => "?"
  end.

End Agents.

(** ** The two programs together *)

Module Flows.

Import Agents.

(** The class of the agent kept under a key of the [devices] dict. *)
Definition kind_of (id : string) : option kind :=
  if id =? "door_lock_1" then Some DoorLock
  else if id =? "alarm_system" then Some AlarmSystem
  else if id =? "motion_sensor_1" then Some MotionSensor
  else None.

(** [devices[id]]. *)
Definition agent_of (w : Devices.world) (id : string) : option Devices.agent :=
  match kind_of id with
  | Some DoorLock => Some (Devices.door_lock_1 w)
  | Some AlarmSystem => Some (Devices.alarm_system w)
  | Some MotionSensor => Some (Devices.motion_sensor_1 w)
  | None => None
  end.

(** Every agent carries the id of its key and a state of its kind. *)
Definition well_formed (w : Devices.world) : bool :=
  (Devices.device_id (Devices.door_lock_1 w) =? "door_lock_1")
  && existsb (String.eqb (Devices.state (Devices.door_lock_1 w)))
       ["locked"; "unlocked"]
  && (Devices.device_id (Devices.alarm_system w) =? "alarm_system")
  && existsb (String.eqb (Devices.state (Devices.alarm_system w)))
       ["armed"; "disarmed"]
  && (Devices.device_id (Devices.motion_sensor_1 w) =? "motion_sensor_1")
  && existsb (String.eqb (Devices.state (Devices.motion_sensor_1 w)))
       ["active"; "inactive"].

(** The message the controller receives for a Status Event: the object
    that [publish_status] serialized, read back by [json.loads]. *)
Definition status_message (payload id st : string) : message :=
  Json payload (JObj [("device_id", JStr id); ("state", JStr st)]).

(** The message the agents receive for a published command. *)
Definition command_message (payload dev cmd : string) : message :=
  Json payload (JObj [("device_id", JStr dev); ("command", JStr cmd)]).

(** The status receive loop on a sequence of messages: the store at the
    end. *)
Fixpoint receive_all (states : App.store) (msgs : list message) : App.store :=
  match msgs with
  | [] => states
  | msg :: rest => receive_all (fst (fst (App.on_message states msg))) rest
  end.

(** The ids and names of the store, in its order. *)
Definition shape (states : App.store) : list (string * string) :=
  map (fun e => (fst e, App.name (snd e))) states.

(** The directives of a list that name a device, as the pairs the handler
    publishes. *)
Definition device_commands (results : list App.directive)
  : list (string * string) :=
  flat_map (fun res => match App.device res with
                       | Some dev => if App.actionable res
                                     then [(dev, App.action res)] else []
                       | None => []
                       end) results.

(** The publish attempts among the effects of the handler. *)
Definition attempts (out : list App.effect) : list (string * string) :=
  flat_map (fun e => match e with
                     | App.LogEvent (App.NlpParsed d c) => [(d, c)]
                     | _ => []
                     end) out.

(** The number of publish failures logged. *)
Definition failures (out : list App.effect) : nat :=
  List.length (filter (fun e => match e with
                           | App.LogEvent App.FailedToPublish => true
                           | _ => false
                           end) out).

(** The status reports among the effects. *)
Definition reports (out : list App.effect) : list (list (string * json)) :=
  flat_map (fun e => match e with
                     | App.LogEvent (App.StatusReport r) => [r]
                     | _ => []
                     end) out.

(** The directives of a list that name a given device. *)
Definition for_device (dev : string) (results : list App.directive)
  : list App.directive :=
  filter (fun d => match App.device d with
                   | Some x => x =? dev
                   | None => false
                   end) results.

(** The device a message names: the string under "device_id" of a JSON
    object. *)
Definition target_id (msg : message) : option string :=
  match msg with
  | Json _ (JObj members) =>
      match dict_get "device_id" members with
      | JStr k => Some k
      | _ => None
      end
  | _ => None
  end.

(** The states of each kind of agent. *)
Definition states_of (k : kind) : list string :=
  match k with
  | DoorLock => ["locked"; "unlocked"]
  | AlarmSystem => ["armed"; "disarmed"]
  | MotionSensor => ["active"; "inactive"]
  end.

(** The agent of a kind in the [devices] dict, and the dict with another
    agent in its place. *)
Definition get_agent (w : Devices.world) (k : kind) : Devices.agent :=
  match k with
  | DoorLock => Devices.door_lock_1 w
  | AlarmSystem => Devices.alarm_system w
  | MotionSensor => Devices.motion_sensor_1 w
  end.

Definition set_agent (w : Devices.world) (k : kind) (a : Devices.agent)
  : Devices.world :=
  match k with
  | DoorLock =>
      Devices.World a (Devices.alarm_system w) (Devices.motion_sensor_1 w)
        (Devices.simulation w)
  | AlarmSystem =>
      Devices.World (Devices.door_lock_1 w) a (Devices.motion_sensor_1 w)
        (Devices.simulation w)
  | MotionSensor =>
      Devices.World (Devices.door_lock_1 w) (Devices.alarm_system w) a
        (Devices.simulation w)
  end.

(** The key under which the agent of a kind is kept. *)
Definition key_of (k : kind) : string :=
  match k with
  | DoorLock => "door_lock_1"
  | AlarmSystem => "alarm_system"
  | MotionSensor => "motion_sensor_1"
  end.




End Flows.

(** ** Facts about substring search and lower-casing *)

Section StringFacts.

Lemma prefix_spec (p s : string) :
  String.prefix p s = true <-> exists rest, s = (p ++ rest)%string.
Proof.
  revert s; induction p as [|c p IH]; intros s; simpl.
  - split; [intros _; exists s; reflexivity | destruct s; reflexivity].
  - destruct s as [|d s].
    + split; [discriminate | intros [r Hr]; discriminate].
    + simpl. destruct (ascii_dec c d) as [->|Hne].
      * rewrite IH. split; intros [r Hr]; exists r.
        -- now rewrite Hr.
        -- now inversion Hr.
      * split; [discriminate | intros [r Hr]; inversion Hr; congruence].
Qed.

Lemma contains_spec (needle hay : string) :
  contains needle hay = true <-> exists a b, hay = (a ++ needle ++ b)%string.
Proof.
  induction hay as [|c hay IH]; cbn [contains].
  - rewrite orb_false_r, prefix_spec. split.
    + intros [r Hr]. exists EmptyString, r. exact Hr.
    + intros [a [b H]]. destruct a; simpl in H; [now exists b | discriminate].
  - rewrite orb_true_iff, prefix_spec, IH. split.
    + intros [[r Hr] | [a [b H]]].
      * exists EmptyString, r. exact Hr.
      * exists (String c a), b. simpl. now rewrite H.
    + intros [a [b H]]. destruct a as [|d a]; simpl in H.
      * left. now exists b.
      * right. exists a, b. now inversion H.
Qed.

Lemma lower_app (a b : string) : lower (a ++ b) = (lower a ++ lower b)%string.
Proof. induction a as [|c a IH]; simpl; [reflexivity | now rewrite IH]. Qed.

(** A keyword written in lower case that occurs in a text still occurs in
    the lower-cased text. *)
Lemma contains_lower (kw text : string) :
  lower kw = kw -> contains kw text = true -> contains kw (lower text) = true.
Proof.
  intros Hkw H. apply contains_spec in H as [a [b ->]].
  apply contains_spec. exists (lower a), (lower b).
  now rewrite !lower_app, Hkw.
Qed.

(** A text that contains a keyword contains every substring of it. *)
Lemma contains_trans (inner outer text : string) :
  contains inner outer = true -> contains outer text = true ->
  contains inner text = true.
Proof.
  intros Hi Ho.
  apply contains_spec in Hi as [a [b ->]].
  apply contains_spec in Ho as [c [d ->]].
  apply contains_spec. exists (c ++ a)%string, (b ++ d)%string.
  clear. induction c as [|x c IH]; simpl.
  - induction a as [|y a IHa]; simpl; [|now rewrite IHa].
    induction inner as [|z i IHi]; simpl; [reflexivity | now rewrite IHi].
  - now rewrite IH.
Qed.

(** A member that is absent from the object reads as [None]. *)
Lemma dict_get_absent (key : string) (members : list (string * json)) :
  has_key key members = false -> dict_get key members = JNull.
Proof.
  unfold has_key. induction members as [|[k v] rest IH]; [reflexivity|].
  cbn [existsb dict_get fst]. intros H.
  apply orb_false_iff in H as [Hk Hrest].
  now rewrite Hrest, Hk.
Qed.

End StringFacts.


(** ** The command interpreter *)

Module Interpreter.

Import App Rules.

Lemma status_condition (text : string) :
  contains "status" text || contains "what is the status" text
  || contains "report" text
  = contains "status" text || contains "report" text.
Proof.
  destruct (contains "status" text) eqn:Hs; [reflexivity|].
  destruct (contains "what is the status" text) eqn:Hw; [|reflexivity].
  rewrite (contains_trans "status" "what is the status" text) in Hs;
    [discriminate | reflexivity | exact Hw].
Qed.

Lemma append_if {A} (c : bool) (commands extra : list A) :
  (if c then commands ++ extra else commands)
  = commands ++ (if c then extra else []).
Proof. destruct c; [reflexivity | now rewrite app_nil_r]. Qed.

(** Each block of statements of [process_nlp] appends what its rule gives. *)
Lemma door_lock_block (text : string) (commands : list directive) :
  (if contains "front door" text || contains "front-door" text then
     if contains "unlock" text then
       commands ++ [Directive (Some "door_lock_1") "unlock"]
     else if contains "lock" text then
       commands ++ [Directive (Some "door_lock_1") "lock"]
     else commands
   else commands)
  = commands ++ door_lock_rule text.
Proof.
  unfold door_lock_rule.
  destruct (_ || _), (contains "unlock" text), (contains "lock" text);
    now rewrite ?app_nil_r.
Qed.

Lemma alarm_block (text : string) (commands : list directive) :
  (if contains "alarm" text then
     if contains "disarm" text then
       commands ++ [Directive (Some "alarm_system") "disarmed"]
     else if contains "arm" text then
       commands ++ [Directive (Some "alarm_system") "armed"]
     else commands
   else commands)
  = commands ++ alarm_rule text.
Proof.
  unfold alarm_rule.
  destruct (contains "alarm" text), (contains "disarm" text),
    (contains "arm" text); now rewrite ?app_nil_r.
Qed.

Lemma motion_sensor_block (text : string) (commands : list directive) :
  (if contains "living room" text || contains "living-room" text then
     if any_in ["deactivate"; "turn off"; "disable"; "off"] text then
       (if any_in ["activate"; "turn on"; "enable"; "on"] text then
          commands ++ [Directive (Some "motion_sensor_1") "active"]
        else commands)
       ++ [Directive (Some "motion_sensor_1") "inactive"]
     else
       if any_in ["activate"; "turn on"; "enable"; "on"] text then
         commands ++ [Directive (Some "motion_sensor_1") "active"]
       else commands
   else commands)
  = commands ++ motion_sensor_rule text.
Proof.
  unfold motion_sensor_rule.
  destruct (_ || _),
    (any_in ["activate"; "turn on"; "enable"; "on"] text),
    (any_in ["deactivate"; "turn off"; "disable"; "off"] text);
    now rewrite ?app_nil_r, <- ?app_assoc.
Qed.

Lemma status_block (text : string) (commands : list directive) :
  (if contains "status" text || contains "what is the status" text
      || contains "report" text then
     commands ++ [Directive None "query_status"]
   else commands)
  = commands ++ status_rule text.
Proof.
  unfold status_rule. rewrite status_condition.
  destruct (_ || _); now rewrite ?app_nil_r.
Qed.

(** The statements of [process_nlp] build the list rule by rule. *)
Lemma process_nlp_rules_blocks (text : string) :
  process_nlp_rules text
  = door_lock_rule text ++ alarm_rule text
    ++ motion_sensor_rule text ++ status_rule text.
Proof.
  unfold process_nlp_rules. cbv zeta.
  rewrite status_block, motion_sensor_block, alarm_block, door_lock_block.
  now rewrite <- !app_assoc.
Qed.

Lemma process_nlp_str (text : string) :
  process_nlp (JStr text) = inl (process_nlp_rules (lower text)).
Proof. reflexivity. Qed.

Lemma door_lock_rule_device (text : string) :
  Forall (fun d => device d = Some "door_lock_1") (door_lock_rule text).
Proof.
  unfold door_lock_rule.
  destruct (_ || _), (contains "unlock" text), (contains "lock" text);
    repeat constructor.
Qed.

Lemma alarm_rule_device (text : string) :
  Forall (fun d => device d = Some "alarm_system") (alarm_rule text).
Proof.
  unfold alarm_rule.
  destruct (contains "alarm" text), (contains "disarm" text),
    (contains "arm" text); repeat constructor.
Qed.

Lemma motion_sensor_rule_device (text : string) :
  Forall (fun d => device d = Some "motion_sensor_1") (motion_sensor_rule text).
Proof.
  unfold motion_sensor_rule.
  destruct (_ || _),
    (any_in ["activate"; "turn on"; "enable"; "on"] text),
    (any_in ["deactivate"; "turn off"; "disable"; "off"] text);
    repeat constructor.
Qed.

Lemma status_rule_device (text : string) :
  Forall (fun d => d = query_status) (status_rule text).
Proof. unfold status_rule. destruct (_ || _); repeat constructor. Qed.

(** Every directive of the interpreter is one of seven. *)
Lemma process_nlp_rules_range (text : string) (d : directive) :
  In d (process_nlp_rules text) ->
  In d [unlock_door; lock_door; disarm_alarm; arm_alarm;
        sensor_active; sensor_inactive; query_status].
Proof.
  rewrite process_nlp_rules_blocks.
  unfold door_lock_rule, alarm_rule, motion_sensor_rule, status_rule.
  rewrite !in_app_iff.
  intros [H | [H | [H | H]]]; revert H.
  - destruct (_ || _), (contains "unlock" text), (contains "lock" text);
      simpl; intuition.
  - destruct (contains "alarm" text), (contains "disarm" text),
      (contains "arm" text); simpl; intuition.
  - destruct (_ || _),
      (any_in ["activate"; "turn on"; "enable"; "on"] text),
      (any_in ["deactivate"; "turn off"; "disable"; "off"] text);
      simpl; intuition.
  - destruct (_ || _); simpl; intuition.
Qed.

(** With a transport that never fails, every actionable directive of the
    list is published. *)
Lemma publish_commands_all (results : list directive) (dev : string) (d : directive) :
  In d results -> device d = Some dev -> actionable d = true ->
  In (Publish dev (action d)) (publish_commands [] results).
Proof.
  induction results as [|res rest IH]; intros Hin Hdev Hact; [contradiction|].
  destruct Hin as [-> | Hin].
  - cbn [publish_commands]. rewrite Hdev, Hact. cbn. auto.
  - cbn [publish_commands].
    destruct (device res) as [dev'|]; [|now apply IH].
    destruct (actionable res); [|now apply IH].
    cbn. right. right. right. now apply IH.
Qed.

(** Whatever the transport does, nothing is published for an empty list. *)
Lemma handler_on_string (states : store) (transport : list bool)
      (members : list (string * json)) (text : string) :
  dict_get "text" members = JStr text ->
  handle_voice_command states transport (JObj members)
  = if text =? EmptyString then ([], Completed)
    else match process_nlp_rules (lower text) with
         | [] => ([LogEvent (ReceivedVoiceCommand (JStr text));
                   LogEvent (CouldNotUnderstand (JStr text))], Completed)
         | ds => ([LogEvent (ReceivedVoiceCommand (JStr text))]
                  ++ report_queries states ds
                  ++ publish_commands transport ds, Completed)
         end.
Proof.
  intros Hget. unfold handle_voice_command. rewrite Hget.
  cbn [truthy]. rewrite negb_involutive.
  destruct (text =? EmptyString); [reflexivity|].
  rewrite process_nlp_str.
  destruct (process_nlp_rules (lower text)); reflexivity.
Qed.

(** [C1] Precedence of "unlock" over "lock" and of "disarm" over "arm".
    For every utterance that mentions the front door and mentions "unlock",
    the interpreter emits the unlock directive of the door lock and not its
    lock directive; for every utterance that mentions "alarm" and mentions
    "disarm" it emits the disarmed directive of the alarm and not the armed
    one.  The four utterances of the specification give the four
    one-directive lists. *)
Theorem interpret_precedence :
  (forall text : string,
      front_door text = true -> mentions "unlock" text = true ->
      exists ds, process_nlp (JStr text) = inl ds
                 /\ In unlock_door ds /\ ~ In lock_door ds)
  /\ (forall text : string,
      mentions "alarm" text = true -> mentions "disarm" text = true ->
      exists ds, process_nlp (JStr text) = inl ds
                 /\ In disarm_alarm ds /\ ~ In arm_alarm ds)
  /\ process_nlp (JStr "unlock the front door") = inl [unlock_door]
  /\ process_nlp (JStr "lock the front door") = inl [lock_door]
  /\ process_nlp (JStr "disarm the alarm") = inl [disarm_alarm]
  /\ process_nlp (JStr "arm the alarm") = inl [arm_alarm].
Proof.
  repeat split; try reflexivity.
  - intros text Hdoor Hun. unfold front_door, mentions in *.
    eexists. split; [apply process_nlp_str|].
    rewrite process_nlp_rules_blocks, !in_app_iff.
    assert (Hd : door_lock_rule (lower text) = [unlock_door])
      by (unfold door_lock_rule; now rewrite Hdoor, Hun).
    rewrite Hd. split; [left; left; reflexivity|].
    intros [H | [H | [H | H]]].
    + destruct H as [H|[]]. discriminate H.
    + pose proof (alarm_rule_device (lower text)) as F.
      rewrite Forall_forall in F. apply F in H. discriminate H.
    + pose proof (motion_sensor_rule_device (lower text)) as F.
      rewrite Forall_forall in F. apply F in H. discriminate H.
    + pose proof (status_rule_device (lower text)) as F.
      rewrite Forall_forall in F. apply F in H. discriminate H.
  - intros text Halarm Hdis. unfold mentions in *.
    eexists. split; [apply process_nlp_str|].
    rewrite process_nlp_rules_blocks, !in_app_iff.
    assert (Ha : alarm_rule (lower text) = [disarm_alarm])
      by (unfold alarm_rule; now rewrite Halarm, Hdis).
    rewrite Ha. split; [right; left; left; reflexivity|].
    intros [H | [H | [H | H]]].
    + pose proof (door_lock_rule_device (lower text)) as F.
      rewrite Forall_forall in F. apply F in H. discriminate H.
    + destruct H as [H|[]]. discriminate H.
    + pose proof (motion_sensor_rule_device (lower text)) as F.
      rewrite Forall_forall in F. apply F in H. discriminate H.
    + pose proof (status_rule_device (lower text)) as F.
      rewrite Forall_forall in F. apply F in H. discriminate H.
Qed.

Lemma interpret_precedence_witness :
  (exists ds, process_nlp (JStr "Please UNLOCK the Front Door") = inl ds
              /\ In unlock_door ds /\ ~ In lock_door ds)
  /\ (exists ds, process_nlp (JStr "disarm the alarm now") = inl ds
                 /\ In disarm_alarm ds /\ ~ In arm_alarm ds).
Proof.
  destruct interpret_precedence as [Hdoor [Halarm _]].
  split; [apply Hdoor | apply Halarm]; reflexivity.
Defined.

(** [C2] Fixed order of the device categories.  For every text the
    directives are those of the door-lock rule, then those of the alarm
    rule, then those of the motion-sensor rule, then the status query; the
    status query leaves the directives of the three device rules as they
    are, and the handler, on a transport that does not fail, publishes
    every one of them.  The utterance "turn
    on living room sensor and report status" gives the sensor activation
    followed by the status query. *)
Theorem interpret_category_order :
  (forall text : string,
      let l := lower text in
      process_nlp (JStr text)
      = inl (door_lock_rule l ++ alarm_rule l
             ++ motion_sensor_rule l ++ status_rule l)
      /\ Forall (fun d => device d = Some "door_lock_1") (door_lock_rule l)
      /\ Forall (fun d => device d = Some "alarm_system") (alarm_rule l)
      /\ Forall (fun d => device d = Some "motion_sensor_1")
                (motion_sensor_rule l)
      /\ Forall (fun d => d = query_status) (status_rule l))
  /\ (forall (states : store) (text dev : string) (d : directive),
      In d (door_lock_rule (lower text) ++ alarm_rule (lower text)
            ++ motion_sensor_rule (lower text)) ->
      device d = Some dev ->
      In (Publish dev (action d))
         (fst (handle_voice_command states []
                 (JObj [("text", JStr text)]))))
  /\ process_nlp (JStr "turn on living room sensor and report status")
     = inl [sensor_active; query_status].
Proof.
  split; [|split; [|reflexivity]].
  - intros text l. rewrite process_nlp_str, process_nlp_rules_blocks.
    repeat split; auto using door_lock_rule_device, alarm_rule_device,
      motion_sensor_rule_device, status_rule_device.
  - intros states text dev d Hin Hdev.
    assert (Hds : In d (process_nlp_rules (lower text))).
    { rewrite process_nlp_rules_blocks, !app_assoc. apply in_or_app. left.
      now rewrite <- !app_assoc. }
    assert (Hact : actionable d = true).
    { apply process_nlp_rules_range in Hds. cbn [In] in Hds.
      unfold actionable.
      destruct Hds as [<-|[<-|[<-|[<-|[<-|[<-|[<-|[]]]]]]]]; try reflexivity.
      discriminate Hdev. }
    rewrite (handler_on_string states [] _ text) by reflexivity.
    destruct (text =? EmptyString) eqn:Hempty.
    + apply String.eqb_eq in Hempty. subst text. destruct Hds.
    + destruct (process_nlp_rules (lower text)) as [|d0 ds] eqn:Hrules;
        [destruct Hds|].
      cbn [fst]. apply in_or_app. right. apply in_or_app. right.
      now apply publish_commands_all.
Qed.

Lemma interpret_category_order_witness :
  In (Publish "motion_sensor_1" "active")
     (fst (handle_voice_command device_states []
             (JObj [("text",
                     JStr "turn on living room sensor and report status")]))).
Proof.
  destruct interpret_category_order as [_ [Hpub _]].
  apply (Hpub device_states
              "turn on living room sensor and report status"
              "motion_sensor_1" sensor_active);
    [vm_compute; left; reflexivity | reflexivity].
Defined.

(** The sentence of the specification on unrecognized text, read word for
    word, fails on the empty text: it holds no keyword, yet the handler returns before it
    logs anything. *)
Lemma empty_text_not_reported :
  ~ (forall text : string,
        no_keyword text = true ->
        In (LogEvent (CouldNotUnderstand (JStr text)))
           (fst (handle_voice_command device_states []
                   (JObj [("text", JStr text)])))).
Proof.
  intros H. specialize (H EmptyString eq_refl). cbn in H. exact H.
Qed.

(** [C8] Text without a recognized keyword.  For every text that mentions
    no front-door phrasing, no "alarm", no living-room phrasing, no "status"
    and no "report", the interpreter returns the empty list and the handler
    publishes no command; if the text is not empty the handler logs that it
    could not understand the command, and on the empty text it returns at
    once without any log. *)
Theorem unrecognized_text_not_understood
  (states : store) (transport : list bool)
  (members : list (string * json)) (text : string) :
  no_keyword text = true ->
  dict_get "text" members = JStr text ->
  process_nlp (JStr text) = inl []
  /\ handle_voice_command states transport (JObj members)
     = (if text =? EmptyString then []
        else [LogEvent (ReceivedVoiceCommand (JStr text));
              LogEvent (CouldNotUnderstand (JStr text))],
        Completed)
  /\ published (fst (handle_voice_command states transport (JObj members)))
     = [].
Proof.
  intros Hno Hget.
  assert (Hrules : process_nlp_rules (lower text) = []).
  { unfold no_keyword, front_door, living_room, mentions in Hno.
    rewrite !andb_true_iff, !negb_true_iff in Hno.
    destruct Hno as [[[[Hd Ha] Hl] Hs] Hr].
    rewrite process_nlp_rules_blocks.
    unfold door_lock_rule, alarm_rule, motion_sensor_rule, status_rule.
    now rewrite Hd, Ha, Hl, Hs, Hr. }
  rewrite process_nlp_str, (handler_on_string _ _ _ _ Hget), Hrules.
  destruct (text =? EmptyString); repeat split.
Qed.

Lemma unrecognized_text_not_understood_witness :
  process_nlp (JStr "open the window") = inl []
  /\ handle_voice_command device_states [] (JObj [("text", JStr "open the window")])
     = ([LogEvent (ReceivedVoiceCommand (JStr "open the window"));
         LogEvent (CouldNotUnderstand (JStr "open the window"))],
        Completed)
  /\ published
       (fst (handle_voice_command device_states []
               (JObj [("text", JStr "open the window")])))
     = [].
Proof.
  apply (unrecognized_text_not_understood device_states []
           [("text", JStr "open the window")] "open the window");
    reflexivity.
Defined.

(** [C9] Turn-on detection is substring containment.  Every text that
    mentions the living room and in which the letters "on" occur anywhere
    gets the sensor activation; "lock the front door and the living room"
    is such a text with no turn-on phrase, "on" occurring only inside
    "front". *)
Theorem turn_on_is_substring_match :
  (forall text : string,
      living_room text = true -> mentions "on" text = true ->
      exists ds, process_nlp (JStr text) = inl ds /\ In sensor_active ds)
  /\ (exists text : string,
      living_room text = true
      /\ turn_on_phrase text = false
      /\ exists ds, process_nlp (JStr text) = inl ds /\ In sensor_active ds).
Proof.
  assert (H : forall text : string,
      living_room text = true -> mentions "on" text = true ->
      exists ds, process_nlp (JStr text) = inl ds /\ In sensor_active ds).
  { intros text Hl Hon. unfold living_room, mentions in *.
    eexists. split; [apply process_nlp_str|].
    rewrite process_nlp_rules_blocks, !in_app_iff.
    right. right. left. unfold motion_sensor_rule. rewrite Hl.
    assert (Hany : any_in ["activate"; "turn on"; "enable"; "on"] (lower text)
                   = true).
    { unfold any_in. cbn [existsb]. rewrite Hon. now rewrite !orb_true_r. }
    rewrite Hany. left. reflexivity. }
  split; [exact H|].
  exists "lock the front door and the living room".
  split; [reflexivity|]. split; [reflexivity|].
  apply H; reflexivity.
Qed.

Lemma turn_on_is_substring_match_witness :
  exists ds,
    process_nlp (JStr "lock the front door and the living room") = inl ds
    /\ In sensor_active ds.
Proof.
  destruct turn_on_is_substring_match as [H _].
  apply H; reflexivity.
Defined.

End Interpreter.

(** ** The device-state store and the status receive loop *)

Module Store.

Import App Rules.

Lemma lookup_known (k : string) (states : store) :
  existsb (fun e => fst e =? k) states = true <-> exists e, lookup k states = Some e.
Proof.
  induction states as [|[k' e'] rest IH]; cbn [existsb lookup fst].
  - split; [discriminate | intros [e H]; discriminate].
  - destruct (k' =? k); cbn [orb]; [|exact IH].
    split; [intros _; now exists e' | reflexivity].
Qed.

Lemma lookup_set_state (k : string) (v : json) (states : store) (e : device_entry) :
  lookup k states = Some e ->
  lookup k (set_state k v states) = Some (Entry (name e) v).
Proof.
  induction states as [|[k' e'] rest IH]; cbn [lookup set_state]; [discriminate|].
  destruct (k' =? k) eqn:Hk; cbn [lookup]; rewrite Hk.
  - now intros [= ->].
  - exact IH.
Qed.

Lemma set_state_twice (k : string) (v : json) (states : store) :
  set_state k v (set_state k v states) = set_state k v states.
Proof.
  induction states as [|[k' e'] rest IH]; cbn [set_state]; [reflexivity|].
  destruct (k' =? k) eqn:Hk; cbn [set_state]; rewrite Hk.
  - reflexivity.
  - now rewrite IH.
Qed.

(** The keys of the store never change. *)
Lemma set_state_keys (k : string) (v : json) (states : store) :
  map fst (set_state k v states) = map fst states.
Proof.
  induction states as [|[k' e'] rest IH]; cbn [set_state]; [reflexivity|].
  destruct (k' =? k); cbn [map fst]; [reflexivity | now rewrite IH].
Qed.

(** A status message for a device of the store. *)
Lemma on_message_known (states : store) (payload : string)
      (members : list (string * json)) (k : string) (e : device_entry) :
  lookup k states = Some e ->
  dict_get "device_id" members = JStr k ->
  let st := dict_get "state" members in
  on_message states (Json payload (JObj members))
  = (set_state k st states,
     [Stdout (ReceivedStatusUpdate payload);
      LogEvent (DeviceUpdated (name e) st);
      EmitStatusUpdate (set_state k st states)],
     Completed).
Proof.
  intros Hlook Hid st. unfold on_message, on_message_try.
  rewrite Hid. cbn [known].
  assert (Hk : existsb (fun e0 => fst e0 =? k) states = true)
    by (apply lookup_known; eauto).
  rewrite Hk. fold st.
  now rewrite (lookup_set_state k st states e Hlook).
Qed.

(** The sentence of the specification on duplicate status events, read
    word for word, fails: the second application of a status event tells a
    change again. *)
Lemma duplicate_status_reported_again :
  ~ (forall (states : store) (k : string) (e : device_entry) (v : json)
            (payload : string),
        lookup k states = Some e ->
        forall s1 out1 s2 out2,
          on_message states
            (Json payload (JObj [("device_id", JStr k); ("state", v)]))
          = (s1, out1, Completed) ->
          on_message s1
            (Json payload (JObj [("device_id", JStr k); ("state", v)]))
          = (s2, out2, Completed) ->
          s2 = s1 /\ reports_change out2 = false).
Proof.
  intros H.
  destruct (H device_states "door_lock_1" (Entry "Front Door Lock" (JStr "locked"))
              (JStr "locked") EmptyString eq_refl _ _ _ _ eq_refl eq_refl)
    as [_ Hflag].
  discriminate Hflag.
Qed.

(** [C3] Duplicate status events.  For every device of the store and every
    state, a second application of the same status event leaves the store
    as the first application left it; the receive loop gives no flag of
    change, and the second application, like the first, logs the state
    update and emits the [status_update] event. *)
Theorem duplicate_status_same_store
  (states : store) (payload : string) (members : list (string * json))
  (k : string) (e : device_entry) :
  lookup k states = Some e ->
  dict_get "device_id" members = JStr k ->
  let msg := Json payload (JObj members) in
  let s1 := set_state k (dict_get "state" members) states in
  let out :=
    [Stdout (ReceivedStatusUpdate payload);
     LogEvent (DeviceUpdated (name e) (dict_get "state" members));
     EmitStatusUpdate s1] in
  on_message states msg = (s1, out, Completed)
  /\ on_message s1 msg = (s1, out, Completed)
  /\ reports_change out = true.
Proof.
  intros Hlook Hid msg s1 out. split; [|split; [|reflexivity]].
  - exact (on_message_known states payload members k e Hlook Hid).
  - unfold msg.
    rewrite (on_message_known s1 payload members k
               (Entry (name e) (dict_get "state" members))
               (lookup_set_state _ _ _ _ Hlook) Hid).
    unfold out, s1. cbn [name]. now rewrite set_state_twice.
Qed.

Lemma duplicate_status_same_store_witness :
  let msg := Json "m" (JObj [("device_id", JStr "alarm_system");
                             ("state", JStr "armed")]) in
  let s1 := set_state "alarm_system" (JStr "armed") device_states in
  let out :=
    [Stdout (ReceivedStatusUpdate "m");
     LogEvent (DeviceUpdated "Alarm System" (JStr "armed"));
     EmitStatusUpdate s1] in
  on_message device_states msg = (s1, out, Completed)
  /\ on_message s1 msg = (s1, out, Completed)
  /\ reports_change out = true.
Proof.
  exact (duplicate_status_same_store device_states "m"
           [("device_id", JStr "alarm_system"); ("state", JStr "armed")]
           "alarm_system" (Entry "Alarm System" (JStr "disarmed"))
           eq_refl eq_refl).
Defined.

(** [C10] The store takes the state as it is received.  For every device
    of the store, the receive loop stores the value of the "state" member
    of the message, whatever it is, and [None] when the member is absent;
    on every such message, also when the value is the one already stored,
    it logs a state update and emits the [status_update] event with the
    store. *)
Theorem status_stored_as_received
  (states : store) (payload : string) (members : list (string * json))
  (k : string) (e : device_entry) :
  lookup k states = Some e ->
  dict_get "device_id" members = JStr k ->
  let st := dict_get "state" members in
  on_message states (Json payload (JObj members))
  = (set_state k st states,
     [Stdout (ReceivedStatusUpdate payload);
      LogEvent (DeviceUpdated (name e) st);
      EmitStatusUpdate (set_state k st states)],
     Completed)
  /\ lookup k (set_state k st states) = Some (Entry (name e) st)
  /\ (has_key "state" members = false -> st = JNull).
Proof.
  intros Hlook Hid st. split; [|split].
  - exact (on_message_known states payload members k e Hlook Hid).
  - exact (lookup_set_state k st states e Hlook).
  - apply dict_get_absent.
Qed.

Lemma status_stored_as_received_witness :
  (lookup "door_lock_1"
     (fst (fst (on_message device_states
                  (Json "m" (JObj [("device_id", JStr "door_lock_1")])))))
   = Some (Entry "Front Door Lock" JNull))
  /\ (snd (fst (on_message device_states
                  (Json "m" (JObj [("device_id", JStr "door_lock_1");
                                   ("state", JStr "locked")]))))
      = [Stdout (ReceivedStatusUpdate "m");
         LogEvent (DeviceUpdated "Front Door Lock" (JStr "locked"));
         EmitStatusUpdate device_states])
  /\ (lookup "door_lock_1"
        (fst (fst (on_message device_states
                     (Json "m" (JObj [("device_id", JStr "door_lock_1");
                                      ("state", JStr "ajar")])))))
      = Some (Entry "Front Door Lock" (JStr "ajar"))).
Proof.
  split; [|split].
  - destruct (status_stored_as_received device_states "m"
                [("device_id", JStr "door_lock_1")] "door_lock_1"
                (Entry "Front Door Lock" (JStr "locked")) eq_refl eq_refl)
      as [Heq [Hlook _]].
    rewrite Heq. exact Hlook.
  - destruct (status_stored_as_received device_states "m"
                [("device_id", JStr "door_lock_1"); ("state", JStr "locked")]
                "door_lock_1"
                (Entry "Front Door Lock" (JStr "locked")) eq_refl eq_refl)
      as [Heq _].
    rewrite Heq. reflexivity.
  - destruct (status_stored_as_received device_states "m"
                [("device_id", JStr "door_lock_1"); ("state", JStr "ajar")]
                "door_lock_1"
                (Entry "Front Door Lock" (JStr "locked")) eq_refl eq_refl)
      as [Heq [Hlook _]].
    rewrite Heq. exact Hlook.
Defined.

End Store.

(** ** The device agents *)

Module AgentFacts.

Import Devices Agents.

Lemma settle_same (self : agent) (target : string) :
  state self = target ->
  settle self target = (self, [Stdout (AlreadyIn (device_id self) target)]).
Proof. intros <-. unfold settle. now rewrite String.eqb_refl. Qed.

Lemma settle_other (self : agent) (target : string) :
  state self <> target ->
  settle self target
  = (Agent (device_id self) target,
     [Stdout (ChangingState (device_id self) (state self) target);
      PublishStatus (device_id self) target;
      Stdout (PublishedStatus (device_id self) target)]).
Proof.
  intros H. unfold settle. apply String.eqb_neq in H. now rewrite H.
Qed.

Section WithStr.

Variable str : json -> string.

(** The motion sensor decides on the lower-cased command. *)
Lemma MotionSensor_on_string (self : agent) (c : string) :
  MotionSensor_process_command str self (JStr c)
  = match maps_to MotionSensor (lower c) with
    | Some target => settle self target
    | None => (self, [Stdout (UnsupportedCommand (device_id self) (JStr c))])
    end.
Proof.
  unfold MotionSensor_process_command, maps_to, settle. cbv zeta.
  destruct (existsb (String.eqb (lower c)) ["active"; "activate"; "on"; "enable"]).
  - now destruct (state self =? "active").
  - destruct (existsb (String.eqb (lower c))
                ["inactive"; "deactivate"; "off"; "disable"]);
      [|reflexivity].
    now destruct (state self =? "inactive").
Qed.

(** Every accepted command is settled in the same way by its agent. *)
Lemma process_command_accepted (k : kind) (self : agent) (c target : string) :
  maps_to k c = Some target ->
  process_command str k self (JStr c) = settle self target.
Proof.
  destruct k; cbn [maps_to process_command existsb].
  - destruct (String.eqb_spec c "lock") as [->|_].
    { intros [= <-]. unfold DoorLock_process_command, settle. cbn.
      now destruct (state self =? "locked"). }
    destruct (String.eqb_spec c "unlock") as [->|_]; [|discriminate].
    intros [= <-]. unfold DoorLock_process_command, settle. cbn.
    now destruct (state self =? "unlocked").
  - destruct (String.eqb_spec c "armed") as [->|_].
    { intros [= <-]. unfold AlarmSystem_process_command, settle. cbn.
      now destruct (state self =? "armed"). }
    destruct (String.eqb_spec c "disarmed") as [->|_]; [|discriminate].
    intros [= <-]. unfold AlarmSystem_process_command, settle. cbn.
    now destruct (state self =? "disarmed").
  - intros Hmaps. cbn [process_command].
    assert (Hlower : lower c = c).
    { revert Hmaps.
      repeat match goal with
             | |- context [String.eqb c ?s] =>
                 destruct (String.eqb_spec c s) as [->|_];
                 [intros _; reflexivity|]; cbn [orb]
             end.
      discriminate. }
    change (maps_to MotionSensor c = Some target) in Hmaps.
    now rewrite MotionSensor_on_string, Hlower, Hmaps.
Qed.

(** [C5] The transition rule of the agents.  For every agent and every
    accepted command: if the command maps to a state that is not the
    current one, the agent moves to it and emits exactly one Status Event;
    if it maps to the current state, the agent stays as it is and emits
    none.  A door lock that is locked emits nothing on "lock", and on
    "unlock" it becomes unlocked and emits one event. *)
Theorem accepted_command_transition :
  (forall (k : kind) (self : agent) (c target : string),
      maps_to k c = Some target ->
      (state self <> target ->
       exists out,
         process_command str k self (JStr c)
         = (Agent (device_id self) target, out)
         /\ status_events out = [(device_id self, target)])
      /\ (state self = target ->
          exists out,
            process_command str k self (JStr c) = (self, out)
            /\ status_events out = []))
  /\ (exists out,
        DoorLock_process_command (Agent "door_lock_1" "locked") (JStr "lock")
        = (Agent "door_lock_1" "locked", out)
        /\ status_events out = [])
  /\ (exists out,
        DoorLock_process_command (Agent "door_lock_1" "locked") (JStr "unlock")
        = (Agent "door_lock_1" "unlocked", out)
        /\ status_events out = [("door_lock_1", "unlocked")]).
Proof.
  split; [|split; eexists; split; reflexivity].
  intros k self c target Hmaps.
  rewrite (process_command_accepted k self c target Hmaps).
  split; intros H.
  - rewrite (settle_other self target H). eexists. split; reflexivity.
  - rewrite (settle_same self target H). eexists. split; reflexivity.
Qed.

(** [C7] A command that maps to no state of the door lock or of the alarm
    is turned down without a word: "disarmed" sent to the door lock and
    "lock" sent to the alarm leave the agent as it is and emit nothing, not
    even a line that tells of the rejection, where the motion sensor prints
    one. *)
Theorem unmapped_command_dropped_silently :
  maps_to DoorLock "disarmed" = None
  /\ DoorLock_process_command (door_lock_1 devices) (JStr "disarmed")
     = (door_lock_1 devices, [])
  /\ on_message str devices
       (Json "m" (JObj [("device_id", JStr "door_lock_1");
                        ("command", JStr "disarmed")]))
     = (devices, [Stdout (ReceivedCommand "m")], Completed)
  /\ AlarmSystem_process_command (alarm_system devices) (JStr "lock")
     = (alarm_system devices, [])
  /\ MotionSensor_process_command str (motion_sensor_1 devices) (JStr "lock")
     = (motion_sensor_1 devices,
        [Stdout (UnsupportedCommand "motion_sensor_1" (JStr "lock"))]).
Proof. repeat split. Qed.

End WithStr.

Lemma accepted_command_transition_witness :
  (exists out,
      process_command plain_str MotionSensor
        (Agent "motion_sensor_1" "inactive") (JStr "enable")
      = (Agent "motion_sensor_1" "active", out)
      /\ status_events out = [("motion_sensor_1", "active")])
  /\ (exists out,
      process_command plain_str AlarmSystem
        (Agent "alarm_system" "disarmed") (JStr "disarmed")
      = (Agent "alarm_system" "disarmed", out)
      /\ status_events out = []).
Proof.
  split.
  - destruct (accepted_command_transition plain_str) as [H _].
    destruct (H MotionSensor (Agent "motion_sensor_1" "inactive")
                "enable" "active" eq_refl) as [Hmove _].
    apply Hmove. discriminate.
  - destruct (accepted_command_transition plain_str) as [H _].
    destruct (H AlarmSystem (Agent "alarm_system" "disarmed")
                "disarmed" "disarmed" eq_refl) as [_ Hstay].
    apply Hstay. reflexivity.
Defined.

End AgentFacts.

(** ** The two receive loops on bad messages *)

Module ReceiveLoops.

Import Agents.

(** The sentence of the specification on malformed messages, read word
    for word, fails on the status topic: a status message for a device of the store that has
    no "state" member is not dropped, [None] becomes the stored state. *)
Lemma status_without_state_not_dropped :
  ~ (forall (states : App.store) (payload : string)
            (members : list (string * json)),
        has_key "state" members = false ->
        fst (fst (App.on_message states (Json payload (JObj members))))
        = states).
Proof.
  intros H.
  specialize (H App.device_states EmptyString
                [("device_id", JStr "door_lock_1")] eq_refl).
  vm_compute in H. discriminate H.
Qed.

Section WithStr.

Variable str : json -> string.

(** [C6] Bad messages on the two topics.  No message makes a receive
    callback raise.  A payload that cannot be decoded, that is not JSON, or
    that is JSON but not an object, changes no state and is answered by a
    printed warning.  A message whose "device_id" is absent or is not a key
    of the device set changes no state, and on the command topic it is
    answered by a printed line.  A command message without "command"
    changes no state.  A status message for a device of the store without
    "state" is applied: [None] is stored as the state of that device. *)
Theorem bad_messages_handled :
  (* no callback raises *)
  (forall (states : App.store) (w : Devices.world) (msg : message),
      snd (App.on_message states msg) = Completed
      /\ snd (Devices.on_message str w msg) = Completed)
  (* payloads that are not a JSON object *)
  /\ (forall (states : App.store) (w : Devices.world) (payload : string),
      App.on_message states Undecodable
      = (states, [App.Stdout (App.ErrorProcessingMessage UnicodeDecodeError)],
         Completed)
      /\ App.on_message states (NotJson payload)
         = (states, [App.Stdout (App.ReceivedStatusUpdate payload);
                     App.Stdout App.MalformedJson], Completed)
      /\ Devices.on_message str w Undecodable
         = (w, [Devices.Stdout (Devices.ErrorProcessingCommand UnicodeDecodeError)],
            Completed)
      /\ Devices.on_message str w (NotJson payload)
         = (w, [Devices.Stdout (Devices.ReceivedCommand payload);
                Devices.Stdout Devices.MalformedJsonCommand], Completed))
  /\ (forall (states : App.store) (w : Devices.world) (payload : string)
             (data : json),
      is_object data = false ->
      App.on_message states (Json payload data)
      = (states, [App.Stdout (App.ReceivedStatusUpdate payload);
                  App.Stdout (App.ErrorProcessingMessage AttributeError)],
         Completed)
      /\ Devices.on_message str w (Json payload data)
         = (w, [Devices.Stdout (Devices.ReceivedCommand payload);
                Devices.Stdout (Devices.ErrorProcessingCommand AttributeError)],
            Completed))
  (* a device id that is absent or unknown, on the status topic *)
  /\ (forall (states : App.store) (payload : string)
             (members : list (string * json)),
      App.known (dict_get "device_id" members) states <> inl true ->
      fst (fst (App.on_message states (Json payload (JObj members))))
      = states)
  (* a device id that is absent or unknown, on the command topic *)
  /\ (forall (w : Devices.world) (payload : string)
             (members : list (string * json)),
      in_strings (dict_get "device_id" members) device_ids = false ->
      Devices.on_message str w (Json payload (JObj members))
      = (w,
         [Devices.Stdout (Devices.ReceivedCommand payload);
          Devices.Stdout
            (if hashable (dict_get "device_id" members)
             then Devices.UnknownDevice (dict_get "device_id" members)
             else Devices.ErrorProcessingCommand TypeError)],
         Completed))
  (* a command message without "command" *)
  /\ (forall (w : Devices.world) (payload : string)
             (members : list (string * json)),
      has_key "command" members = false ->
      fst (fst (Devices.on_message str w (Json payload (JObj members)))) = w)
  (* a status message without "state" *)
  /\ (forall (states : App.store) (payload : string)
             (members : list (string * json)) (k : string)
             (e : App.device_entry),
      App.lookup k states = Some e ->
      dict_get "device_id" members = JStr k ->
      has_key "state" members = false ->
      fst (fst (App.on_message states (Json payload (JObj members))))
      = App.set_state k JNull states).
Proof.
  repeat apply conj.
  - intros states w msg. split.
    + unfold App.on_message.
      now destruct (App.on_message_try states msg) as [[s o] [|[]]].
    + unfold Devices.on_message.
      now destruct (Devices.on_message_try str w msg) as [[s o] [|[]]].
  - intros states w payload. repeat split.
  - intros states w payload data Hobj.
    destruct data; try discriminate Hobj; repeat split.
  - intros states payload members Hknown.
    unfold App.on_message, App.on_message_try.
    destruct (dict_get "device_id" members) as [| | | |k| |];
      cbn [App.known] in *; try reflexivity.
    destruct (existsb (fun e => fst e =? k) states);
      [now contradiction Hknown | reflexivity].
  - intros w payload members Hid.
    unfold Devices.on_message, Devices.on_message_try.
    destruct (dict_get "device_id" members) as [| | | |k| |];
      cbn [hashable]; try reflexivity.
    cbn [in_strings device_ids existsb] in Hid.
    rewrite !orb_false_iff in Hid. destruct Hid as [H1 [H2 [H3 _]]].
    now rewrite H1, H2, H3.
  - intros w payload members Hcmd.
    unfold Devices.on_message, Devices.on_message_try.
    rewrite (dict_get_absent "command" members Hcmd).
    destruct w as [door alarm motion sim].
    destruct (dict_get "device_id" members) as [| | | |k| |];
      try reflexivity.
    cbn [Devices.door_lock_1 Devices.alarm_system Devices.motion_sensor_1
         Devices.simulation].
    destruct (k =? "door_lock_1"); [reflexivity|].
    destruct (k =? "alarm_system"); [reflexivity|].
    destruct (k =? "motion_sensor_1"); reflexivity.
  - intros states payload members k e Hlook Hid Hstate.
    rewrite (Store.on_message_known states payload members k e Hlook Hid).
    cbn [fst]. now rewrite (dict_get_absent "state" members Hstate).
Qed.

End WithStr.

Lemma bad_messages_handled_witness :
  fst (fst (App.on_message App.device_states
              (Json "m" (JObj [("device_id", JStr "garage");
                               ("state", JStr "open")]))))
  = App.device_states
  /\ Devices.on_message plain_str Devices.devices
       (Json "m" (JObj [("device_id", JStr "garage"); ("command", JStr "open")]))
     = (Devices.devices,
        [Devices.Stdout (Devices.ReceivedCommand "m");
         Devices.Stdout (Devices.UnknownDevice (JStr "garage"))],
        Completed)
  /\ fst (fst (Devices.on_message plain_str Devices.devices
                 (Json "m" (JObj [("device_id", JStr "alarm_system")]))))
     = Devices.devices
  /\ fst (fst (App.on_message App.device_states
                 (Json "m" (JObj [("device_id", JStr "alarm_system")]))))
     = App.set_state "alarm_system" JNull App.device_states.
Proof.
  destruct (bad_messages_handled plain_str)
    as [_ [_ [_ [Hstatus [Hcommand [Hnocmd Hnostate]]]]]].
  repeat apply conj.
  - apply (Hstatus App.device_states "m"
             [("device_id", JStr "garage"); ("state", JStr "open")]).
    discriminate.
  - apply (Hcommand Devices.devices "m"
             [("device_id", JStr "garage"); ("command", JStr "open")]).
    reflexivity.
  - apply (Hnocmd Devices.devices "m" [("device_id", JStr "alarm_system")]).
    reflexivity.
  - apply (Hnostate App.device_states "m" [("device_id", JStr "alarm_system")]
             "alarm_system" (App.Entry "Alarm System" (JStr "disarmed")));
      reflexivity.
Defined.

End ReceiveLoops.

(** ** More on the command interpreter *)

Module InterpreterMore.

Import App Rules Flows Interpreter.

Lemma for_device_app (dev : string) (a b : list directive) :
  for_device dev (a ++ b) = for_device dev a ++ for_device dev b.
Proof. apply filter_app. Qed.

Lemma for_device_same (dev : string) (l : list directive) :
  Forall (fun d => device d = Some dev) l -> for_device dev l = l.
Proof.
  induction 1 as [|d l Hd _ IH]; [reflexivity|].
  cbn [for_device filter]. rewrite Hd, String.eqb_refl.
  fold (for_device dev l). now rewrite IH.
Qed.

Lemma for_device_other (dev other : string) (l : list directive) :
  other <> dev ->
  Forall (fun d => device d = Some other) l -> for_device dev l = [].
Proof.
  intros Hne. induction 1 as [|d l Hd _ IH]; [reflexivity|].
  cbn [for_device filter]. rewrite Hd.
  apply String.eqb_neq in Hne. rewrite Hne. exact IH.
Qed.

Lemma for_device_query (dev : string) (l : list directive) :
  Forall (fun d => d = query_status) l -> for_device dev l = [].
Proof.
  induction 1 as [|d l Hd _ IH]; [reflexivity|].
  cbn [for_device filter]. rewrite Hd. exact IH.
Qed.

(** The directives for one device are those of the rule of that device. *)
Lemma for_device_blocks (text : string) :
  for_device "door_lock_1" (process_nlp_rules text) = door_lock_rule text
  /\ for_device "alarm_system" (process_nlp_rules text) = alarm_rule text
  /\ for_device "motion_sensor_1" (process_nlp_rules text)
     = motion_sensor_rule text.
Proof.
  rewrite process_nlp_rules_blocks, !for_device_app.
  pose proof (door_lock_rule_device text) as Hd.
  pose proof (alarm_rule_device text) as Ha.
  pose proof (motion_sensor_rule_device text) as Hm.
  pose proof (status_rule_device text) as Hs.
  repeat split.
  - rewrite (for_device_same _ _ Hd),
      (for_device_other "door_lock_1" "alarm_system" _ ltac:(discriminate) Ha),
      (for_device_other "door_lock_1" "motion_sensor_1" _ ltac:(discriminate) Hm),
      (for_device_query _ _ Hs).
    now rewrite !app_nil_r.
  - rewrite (for_device_same _ _ Ha),
      (for_device_other "alarm_system" "door_lock_1" _ ltac:(discriminate) Hd),
      (for_device_other "alarm_system" "motion_sensor_1" _ ltac:(discriminate) Hm),
      (for_device_query _ _ Hs).
    now rewrite !app_nil_r.
  - rewrite (for_device_same _ _ Hm),
      (for_device_other "motion_sensor_1" "door_lock_1" _ ltac:(discriminate) Hd),
      (for_device_other "motion_sensor_1" "alarm_system" _ ltac:(discriminate) Ha),
      (for_device_query _ _ Hs).
    now rewrite !app_nil_r.
Qed.

(** [X1] Every utterance that mentions "alarm" acts on the alarm: since
    "alarm" contains "arm", it gives exactly one alarm directive, the
    disarming one if it mentions "disarm" and the arming one otherwise. *)
Theorem alarm_mention_always_acts (text : string) :
  mentions "alarm" text = true ->
  exists ds,
    process_nlp (JStr text) = inl ds
    /\ for_device "alarm_system" ds
       = [if mentions "disarm" text then disarm_alarm else arm_alarm].
Proof.
  unfold mentions. intros Halarm.
  eexists. split; [apply process_nlp_str|].
  destruct (for_device_blocks (lower text)) as [_ [-> _]].
  unfold alarm_rule. rewrite Halarm.
  rewrite (contains_trans "arm" "alarm" (lower text) eq_refl Halarm).
  now destruct (contains "disarm" (lower text)).
Qed.

Lemma alarm_mention_always_acts_witness :
  exists ds,
    process_nlp (JStr "is the alarm working") = inl ds
    /\ for_device "alarm_system" ds = [arm_alarm].
Proof.
  exact (alarm_mention_always_acts "is the alarm working" eq_refl).
Defined.

(** [X2] Every utterance that mentions the living room and "deactivate"
    gives both sensor directives, the activation first: "deactivate"
    contains "activate". *)
Theorem deactivate_also_activates (text : string) :
  living_room text = true ->
  mentions "deactivate" text = true ->
  exists ds,
    process_nlp (JStr text) = inl ds
    /\ for_device "motion_sensor_1" ds = [sensor_active; sensor_inactive].
Proof.
  unfold living_room, mentions. intros Hroom Hde.
  eexists. split; [apply process_nlp_str|].
  destruct (for_device_blocks (lower text)) as [_ [_ ->]].
  unfold motion_sensor_rule, any_in. rewrite Hroom. cbn [existsb].
  rewrite Hde.
  rewrite (contains_trans "activate" "deactivate" (lower text) eq_refl Hde).
  reflexivity.
Qed.

Lemma deactivate_also_activates_witness :
  exists ds,
    process_nlp (JStr "Deactivate the living room sensor") = inl ds
    /\ for_device "motion_sensor_1" ds = [sensor_active; sensor_inactive].
Proof.
  exact (deactivate_also_activates "Deactivate the living room sensor"
           eq_refl eq_refl).
Defined.

Lemma door_lock_rule_values (text : string) :
  In (door_lock_rule text) [[]; [unlock_door]; [lock_door]].
Proof.
  unfold door_lock_rule.
  destruct (_ || _), (contains "unlock" text), (contains "lock" text);
    cbn; auto.
Qed.

Lemma alarm_rule_values (text : string) :
  In (alarm_rule text) [[]; [disarm_alarm]; [arm_alarm]].
Proof.
  unfold alarm_rule.
  destruct (contains "alarm" text), (contains "disarm" text),
    (contains "arm" text); cbn; auto.
Qed.

Lemma motion_sensor_rule_values (text : string) :
  In (motion_sensor_rule text)
     [[]; [sensor_active]; [sensor_inactive]; [sensor_active; sensor_inactive]].
Proof.
  unfold motion_sensor_rule.
  destruct (_ || _),
    (any_in ["activate"; "turn on"; "enable"; "on"] text),
    (any_in ["deactivate"; "turn off"; "disable"; "off"] text);
    cbn; auto.
Qed.

Lemma status_rule_values (text : string) :
  In (status_rule text) [[]; [query_status]].
Proof. unfold status_rule. destruct (_ || _); cbn; auto. Qed.

(** [X3] For every text the interpreter gives at most five directives, no
    directive twice, at most one for the door lock and at most one for the
    alarm. *)
Theorem interpret_bounded (text : string) :
  exists ds,
    process_nlp (JStr text) = inl ds
    /\ (List.length ds <= 5)%nat
    /\ NoDup ds
    /\ (List.length (for_device "door_lock_1" ds) <= 1)%nat
    /\ (List.length (for_device "alarm_system" ds) <= 1)%nat.
Proof.
  eexists. split; [apply process_nlp_str|].
  destruct (for_device_blocks (lower text)) as [-> [-> _]].
  rewrite process_nlp_rules_blocks.
  pose proof (door_lock_rule_values (lower text)) as Hd.
  pose proof (alarm_rule_values (lower text)) as Ha.
  pose proof (motion_sensor_rule_values (lower text)) as Hm.
  pose proof (status_rule_values (lower text)) as Hs.
  cbn [In] in Hd, Ha, Hm, Hs.
  destruct Hd as [<-|[<-|[<-|[]]]];
  destruct Ha as [<-|[<-|[<-|[]]]];
  destruct Hm as [<-|[<-|[<-|[<-|[]]]]];
  destruct Hs as [<-|[<-|[]]];
  (repeat split; cbn [app List.length]; try lia;
   repeat constructor; cbn [In]; intuition discriminate).
Qed.

Lemma lower_ascii_twice (c : ascii) : lower_ascii (lower_ascii c) = lower_ascii c.
Proof.
  destruct c as [[] [] [] [] [] [] [] []]; reflexivity.
Qed.

Lemma lower_twice (s : string) : lower (lower s) = lower s.
Proof.
  induction s as [|c s IH]; [reflexivity|].
  cbn [lower]. now rewrite lower_ascii_twice, IH.
Qed.

Lemma lower_upper_ascii (c : ascii) :
  lower_ascii (upper_ascii c) = lower_ascii c.
Proof.
  destruct c as [[] [] [] [] [] [] [] []]; reflexivity.
Qed.

Lemma lower_upper (s : string) : lower (upper s) = lower s.
Proof.
  induction s as [|c s IH]; [reflexivity|].
  cbn [lower upper]. now rewrite lower_upper_ascii, IH.
Qed.

(** [X4] The interpreter is blind to letter case: on ASCII text, the text
    in upper case, the text in lower case and the text as it is get the
    same directives. *)
Theorem interpret_case_blind (text : string) :
  is_ascii text = true ->
  process_nlp (JStr (upper text)) = process_nlp (JStr text)
  /\ process_nlp (JStr (lower text)) = process_nlp (JStr text).
Proof.
  intros _. split.
  - now rewrite !process_nlp_str, lower_upper.
  - now rewrite !process_nlp_str, lower_twice.
Qed.

Lemma interpret_case_blind_witness :
  process_nlp (JStr (upper "Unlock the Front Door")) = inl [unlock_door]
  /\ upper "Unlock the Front Door" = "UNLOCK THE FRONT DOOR".
Proof.
  destruct (interpret_case_blind "Unlock the Front Door" eq_refl) as [H _].
  rewrite H. split; reflexivity.
Defined.

(** [X5] On a value that is not a string the interpreter gives the empty
    list if the value is false ([None], 0, an empty list or dict) and
    raises [AttributeError] if it is true; the empty string gives the empty
    list. *)
Theorem interpret_not_a_string (v : json) :
  (truthy v = false -> process_nlp v = inl [])
  /\ (truthy v = true -> (forall s, v <> JStr s) ->
      process_nlp v = inr AttributeError).
Proof.
  split.
  - destruct v as [| b | n | q | s | items | members]; cbn [process_nlp];
      intros H; try (rewrite H; reflexivity); try reflexivity.
    cbn [truthy] in H. apply negb_false_iff, String.eqb_eq in H.
    subst s. reflexivity.
  - destruct v as [| b | n | q | s | items | members]; cbn [process_nlp];
      intros H Hs; try (rewrite H; reflexivity); try discriminate H.
    now contradiction (Hs s).
Qed.

Lemma interpret_not_a_string_witness :
  process_nlp (JArr []) = inl []
  /\ process_nlp (JInt 7) = inr AttributeError.
Proof.
  split.
  - destruct (interpret_not_a_string (JArr [])) as [H _]. now apply H.
  - destruct (interpret_not_a_string (JInt 7)) as [_ H].
    apply H; [reflexivity | discriminate].
Defined.

End InterpreterMore.

(** ** More on the voice-command handler *)

Module HandlerMore.

Import App Rules Flows Interpreter InterpreterMore.

Lemma attempts_app (a b : list effect) :
  attempts (a ++ b) = attempts a ++ attempts b.
Proof. apply flat_map_app. Qed.

Lemma published_app (a b : list effect) :
  published (a ++ b) = published a ++ published b.
Proof. apply flat_map_app. Qed.

Lemma reports_app (a b : list effect) :
  reports (a ++ b) = reports a ++ reports b.
Proof. apply flat_map_app. Qed.

Lemma failures_app (a b : list effect) :
  failures (a ++ b) = (failures a + failures b)%nat.
Proof. unfold failures. now rewrite filter_app, length_app. Qed.

(** The first loop of the handler only logs. *)
Lemma report_queries_quiet (states : store) (results : list directive) :
  attempts (report_queries states results) = []
  /\ published (report_queries states results) = []
  /\ failures (report_queries states results) = 0%nat.
Proof.
  induction results as [|res rest [IH1 [IH2 IH3]]]; [now repeat split|].
  cbn [report_queries].
  rewrite attempts_app, published_app, failures_app, IH1, IH2, IH3.
  now destruct (action res =? "query_status").
Qed.

Lemma report_queries_app (states : store) (a b : list directive) :
  report_queries states (a ++ b)
  = report_queries states a ++ report_queries states b.
Proof.
  induction a as [|res a IH]; [reflexivity|].
  cbn [app report_queries]. now rewrite IH, app_assoc.
Qed.

(** The second loop of the handler: what it tries, what it publishes and
    what it reports. *)
Lemma publish_commands_attempts (transport : list bool) (results : list directive) :
  attempts (publish_commands transport results) = device_commands results.
Proof.
  revert transport. induction results as [|res rest IH]; intros transport;
    [reflexivity|].
  cbn [publish_commands device_commands flat_map].
  destruct (device res) as [dev|]; [|apply IH].
  destruct (actionable res); [|apply IH].
  change (LogEvent (NlpParsed dev (action res)) :: ?l)
    with ([LogEvent (NlpParsed dev (action res))] ++ l).
  rewrite !attempts_app, IH.
  now destruct (hd true transport).
Qed.

Lemma publish_commands_count (transport : list bool) (results : list directive) :
  (failures (publish_commands transport results)
   + List.length (published (publish_commands transport results)))%nat
  = List.length (device_commands results).
Proof.
  revert transport. induction results as [|res rest IH]; intros transport;
    [reflexivity|].
  cbn [publish_commands device_commands flat_map].
  destruct (device res) as [dev|]; [|apply IH].
  destruct (actionable res); [|apply IH].
  change (LogEvent (NlpParsed dev (action res)) :: ?l)
    with ([LogEvent (NlpParsed dev (action res))] ++ l).
  rewrite !failures_app, !published_app, !length_app.
  specialize (IH (tl transport)).
  fold (device_commands rest). rewrite <- IH.
  destruct (hd true transport); cbn; lia.
Qed.

Lemma publish_commands_success (transport : list bool) (results : list directive) :
  Forall (fun ok => ok = true) transport ->
  published (publish_commands transport results) = device_commands results.
Proof.
  revert transport. induction results as [|res rest IH]; intros transport Hok;
    [reflexivity|].
  cbn [publish_commands device_commands flat_map].
  destruct (device res) as [dev|]; [|now apply IH].
  destruct (actionable res); [|now apply IH].
  change (LogEvent (NlpParsed dev (action res)) :: ?l)
    with ([LogEvent (NlpParsed dev (action res))] ++ l).
  rewrite !published_app.
  assert (Hhd : hd true transport = true)
    by (destruct Hok; [reflexivity | assumption]).
  assert (Htl : Forall (fun ok => ok = true) (tl transport))
    by (destruct Hok; [constructor | assumption]).
  rewrite Hhd, (IH _ Htl). reflexivity.
Qed.

Lemma publish_commands_no_report (transport : list bool) (results : list directive) :
  reports (publish_commands transport results) = [].
Proof.
  revert transport. induction results as [|res rest IH]; intros transport;
    [reflexivity|].
  cbn [publish_commands].
  destruct (device res) as [dev|]; [|apply IH].
  destruct (actionable res); [|apply IH].
  change (LogEvent (NlpParsed dev (action res)) :: ?l)
    with ([LogEvent (NlpParsed dev (action res))] ++ l).
  rewrite !reports_app, IH.
  now destruct (hd true transport).
Qed.

(** What the handler tries and how the tries end, for a text. *)
Lemma handler_tries
  (states : store) (transport : list bool)
  (members : list (string * json)) (text : string) :
  dict_get "text" members = JStr text ->
  attempts (fst (handle_voice_command states transport (JObj members)))
  = device_commands (process_nlp_rules (lower text))
  /\ (failures (fst (handle_voice_command states transport (JObj members)))
      + List.length
          (published
             (fst (handle_voice_command states transport (JObj members)))))%nat
     = List.length (device_commands (process_nlp_rules (lower text))).
Proof.
  intros Hget.
  rewrite (handler_on_string _ _ _ _ Hget).
  destruct (String.eqb_spec text EmptyString) as [->|_]; [now split|].
  destruct (process_nlp_rules (lower text)) as [|d ds] eqn:Hrules;
    [now split|].
  cbn [fst].
  destruct (report_queries_quiet states (d :: ds)) as [Ha [Hp Hf]].
  rewrite !attempts_app, !failures_app, !published_app, Ha, Hp, Hf.
  rewrite publish_commands_attempts.
  split; [reflexivity|].
  cbn [app failures published flat_map filter List.length Nat.add].
  apply publish_commands_count.
Qed.

(** [X6] A publish that fails stops nothing: whatever the transport does,
    the handler tries, in their order, every directive of the interpreter
    that names a device, and each try ends in a published command or in a
    logged failure. *)
Theorem every_directive_attempted
  (states : store) (transport : list bool)
  (members : list (string * json)) (text : string) :
  dict_get "text" members = JStr text ->
  exists ds,
    process_nlp (JStr text) = inl ds
    /\ attempts (fst (handle_voice_command states transport (JObj members)))
       = device_commands ds
    /\ (failures (fst (handle_voice_command states transport (JObj members)))
        + List.length
            (published
               (fst (handle_voice_command states transport (JObj members)))))%nat
       = List.length (device_commands ds).
Proof.
  intros Hget. eexists. split; [apply process_nlp_str|].
  exact (handler_tries states transport members text Hget).
Qed.

Lemma every_directive_attempted_witness :
  exists ds,
    process_nlp (JStr "unlock the front door and disarm the alarm") = inl ds
    /\ attempts
         (fst (handle_voice_command device_states [false; true]
                 (JObj [("text",
                         JStr "unlock the front door and disarm the alarm")])))
       = device_commands ds
    /\ (failures
          (fst (handle_voice_command device_states [false; true]
                  (JObj [("text",
                          JStr "unlock the front door and disarm the alarm")])))
        + List.length
            (published
               (fst (handle_voice_command device_states [false; true]
                       (JObj [("text",
                               JStr "unlock the front door and disarm the alarm")])))))%nat
       = List.length (device_commands ds).
Proof.
  exact (every_directive_attempted device_states [false; true]
           [("text", JStr "unlock the front door and disarm the alarm")]
           "unlock the front door and disarm the alarm" eq_refl).
Defined.

(** What the handler publishes on a transport that never fails. *)
Lemma handler_publishes
  (states : store) (transport : list bool)
  (members : list (string * json)) (text : string) :
  dict_get "text" members = JStr text ->
  Forall (fun ok => ok = true) transport ->
  published (fst (handle_voice_command states transport (JObj members)))
  = device_commands (process_nlp_rules (lower text)).
Proof.
  intros Hget Hok.
  rewrite (handler_on_string _ _ _ _ Hget).
  destruct (String.eqb_spec text EmptyString) as [->|_]; [reflexivity|].
  destruct (process_nlp_rules (lower text)) as [|d ds] eqn:Hrules;
    [reflexivity|].
  cbn [fst].
  destruct (report_queries_quiet states (d :: ds)) as [_ [Hp _]].
  rewrite !published_app, Hp.
  now rewrite (publish_commands_success _ _ Hok).
Qed.

(** [X7] On a transport that never fails the handler publishes exactly the
    directives of the interpreter that name a device, in their order, and
    logs no failure. *)
Theorem published_when_transport_works
  (states : store) (transport : list bool)
  (members : list (string * json)) (text : string) :
  dict_get "text" members = JStr text ->
  Forall (fun ok => ok = true) transport ->
  exists ds,
    process_nlp (JStr text) = inl ds
    /\ published (fst (handle_voice_command states transport (JObj members)))
       = device_commands ds
    /\ failures (fst (handle_voice_command states transport (JObj members)))
       = 0%nat.
Proof.
  intros Hget Hok.
  destruct (handler_tries states transport members text Hget)
    as [Hatt Hcount].
  eexists. split; [apply process_nlp_str|].
  pose proof (handler_publishes states transport members text Hget Hok)
    as Hpub.
  split; [exact Hpub|].
  rewrite Hpub in Hcount. lia.
Qed.

Lemma published_when_transport_works_witness :
  exists ds,
    process_nlp (JStr "lock the front door and arm the alarm") = inl ds
    /\ published
         (fst (handle_voice_command device_states [true]
                 (JObj [("text", JStr "lock the front door and arm the alarm")])))
       = device_commands ds
    /\ failures
         (fst (handle_voice_command device_states [true]
                 (JObj [("text", JStr "lock the front door and arm the alarm")])))
       = 0%nat.
Proof.
  apply (published_when_transport_works device_states [true]
           [("text", JStr "lock the front door and arm the alarm")]
           "lock the front door and arm the alarm");
    [reflexivity | repeat constructor].
Defined.

(** The reports of the first loop on the directives of the interpreter. *)
Lemma report_queries_rules (states : store) (text : string) :
  report_queries states (process_nlp_rules text)
  = if contains "status" text || contains "report" text
    then [LogEvent ProcessingStatusQuery;
          LogEvent (StatusReport (status_report states))]
    else [].
Proof.
  rewrite process_nlp_rules_blocks, !report_queries_app.
  pose proof (door_lock_rule_values text) as Hd.
  pose proof (alarm_rule_values text) as Ha.
  pose proof (motion_sensor_rule_values text) as Hm.
  cbn [In] in Hd, Ha, Hm.
  destruct Hd as [<-|[<-|[<-|[]]]];
  destruct Ha as [<-|[<-|[<-|[]]]];
  destruct Hm as [<-|[<-|[<-|[<-|[]]]]];
  unfold status_rule; destruct (_ || _); reflexivity.
Qed.

(** [X8] The status report.  The handler logs one status report, listing
    every device of the store in its order, if the text is not empty and
    mentions "status" or "report", and none otherwise; and it logs the
    report before it publishes any command, though the query is the last
    directive of the list. *)
Theorem status_report_once_and_first
  (states : store) (transport : list bool)
  (members : list (string * json)) (text : string) :
  dict_get "text" members = JStr text ->
  let out := fst (handle_voice_command states transport (JObj members)) in
  reports out
  = (if negb (text =? EmptyString)
        && (mentions "status" text || mentions "report" text)
     then [map (fun e => (name (snd e), state (snd e))) states]
     else [])
  /\ exists before after,
      out = before ++ after /\ published before = [] /\ reports after = [].
Proof.
  intros Hget out. unfold out, mentions.
  rewrite (handler_on_string _ _ _ _ Hget).
  destruct (String.eqb_spec text EmptyString) as [->|_].
  { split; [reflexivity|]. now exists [], []. }
  cbn [negb andb].
  pose proof (report_queries_rules states (lower text)) as Hrep.
  destruct (process_nlp_rules (lower text)) as [|d ds] eqn:Hrules.
  - cbn [fst]. split.
    + cbn [report_queries] in Hrep.
      destruct (contains "status" (lower text) || contains "report" (lower text));
        [discriminate Hrep | reflexivity].
    + eexists _, []. rewrite app_nil_r. now repeat split.
  - cbn [fst]. split.
    + rewrite !reports_app, publish_commands_no_report, Hrep, app_nil_r.
      now destruct (contains "status" (lower text)
                    || contains "report" (lower text)).
    + exists ([LogEvent (ReceivedVoiceCommand (JStr text))]
              ++ report_queries states (d :: ds)),
             (publish_commands transport (d :: ds)).
      split; [now rewrite app_assoc|].
      split; [|apply publish_commands_no_report].
      rewrite published_app.
      now destruct (report_queries_quiet states (d :: ds)) as [_ [-> _]].
Qed.

Lemma status_report_once_and_first_witness :
  reports
    (fst (handle_voice_command device_states []
            (JObj [("text", JStr "unlock the front door and report")])))
  = [[("Front Door Lock", JStr "locked"); ("Alarm System", JStr "disarmed");
      ("Living Room Sensor", JStr "inactive")]].
Proof.
  destruct (status_report_once_and_first device_states []
              [("text", JStr "unlock the front door and report")]
              "unlock the front door and report" eq_refl) as [H _].
  exact H.
Defined.

(** [X9] What the handler does with an event that carries no usable text.
    Data that is not a dict, and a dict whose "text" is absent or false,
    are ignored without a log.  A "text" that is true but not a string is
    logged as received and then makes the handler raise [AttributeError];
    no command is published. *)
Theorem handler_without_text
  (states : store) (transport : list bool) :
  (forall data, is_object data = false ->
      handle_voice_command states transport data = ([], Completed))
  /\ (forall members, has_key "text" members = false ->
      handle_voice_command states transport (JObj members) = ([], Completed))
  /\ (forall members, truthy (dict_get "text" members) = false ->
      handle_voice_command states transport (JObj members) = ([], Completed))
  /\ (forall members,
      truthy (dict_get "text" members) = true ->
      (forall s, dict_get "text" members <> JStr s) ->
      handle_voice_command states transport (JObj members)
      = ([LogEvent (ReceivedVoiceCommand (dict_get "text" members))],
         Raised AttributeError)).
Proof.
  repeat apply conj.
  - intros data Hobj. destruct data; try discriminate Hobj; reflexivity.
  - intros members Hkey. unfold handle_voice_command.
    now rewrite (dict_get_absent "text" members Hkey).
  - intros members Hfalse. unfold handle_voice_command. now rewrite Hfalse.
  - intros members Htrue Hstr. unfold handle_voice_command.
    rewrite Htrue. cbn [negb].
    destruct (interpret_not_a_string (dict_get "text" members)) as [_ H].
    now rewrite (H Htrue Hstr).
Qed.

Lemma handler_without_text_witness :
  handle_voice_command device_states [] (JStr "unlock the front door")
  = ([], Completed)
  /\ handle_voice_command device_states [] (JObj [("text", JInt 7)])
     = ([LogEvent (ReceivedVoiceCommand (JInt 7))], Raised AttributeError).
Proof.
  destruct (handler_without_text device_states []) as [Hdata [_ [_ Hraise]]].
  split.
  - now apply Hdata.
  - apply (Hraise [("text", JInt 7)]); [reflexivity | discriminate].
Defined.

(** What [normalize_action_to_state] gives: the two verbs of the door lock
    become its states, everything else is returned as it is. *)
Lemma normalize_action_to_state_cases (device_id action : json) :
  normalize_action_to_state device_id action
  = if eq_str device_id "door_lock_1" then
      if eq_str action "unlock" then JStr "unlocked"
      else if eq_str action "lock" then JStr "locked"
      else action
    else action.
Proof.
  unfold normalize_action_to_state.
  destruct (eq_str device_id "door_lock_1");
  destruct (eq_str action "unlock"); try reflexivity;
  destruct (eq_str action "lock"); try reflexivity;
  destruct (in_strings action ["locked"; "unlocked"]); try reflexivity;
  destruct (eq_str device_id "alarm_system");
  destruct (in_strings action ["armed"; "disarmed"]); try reflexivity;
  destruct (eq_str device_id "motion_sensor_1");
  destruct (in_strings action ["active"; "inactive"]); reflexivity.
Qed.

(** [X10] [normalize_action_to_state] changes nothing but the verbs "lock"
    and "unlock" of the door lock, and normalizing twice is normalizing
    once. *)
Theorem normalize_idempotent (device_id action : json) :
  normalize_action_to_state device_id
    (normalize_action_to_state device_id action)
  = normalize_action_to_state device_id action
  /\ (eq_str device_id "door_lock_1"
      && (eq_str action "lock" || eq_str action "unlock") = false ->
      normalize_action_to_state device_id action = action).
Proof.
  rewrite !normalize_action_to_state_cases. split.
  - destruct (eq_str device_id "door_lock_1"); [|reflexivity].
    destruct (eq_str action "unlock") eqn:Hu; [reflexivity|].
    destruct (eq_str action "lock") eqn:Hl; [reflexivity|].
    now rewrite Hu, Hl.
  - destruct (eq_str device_id "door_lock_1"); [|reflexivity].
    destruct (eq_str action "unlock"); [now rewrite orb_true_r|].
    destruct (eq_str action "lock"); [discriminate|reflexivity].
Qed.

Lemma normalize_idempotent_witness :
  normalize_action_to_state (JStr "alarm_system") (JStr "lock") = JStr "lock".
Proof.
  destruct (normalize_idempotent (JStr "alarm_system") (JStr "lock")) as [_ H].
  now apply H.
Defined.

(** The state a directive of the interpreter asks for. *)
Lemma directive_target (text dev : string) (d : directive) :
  In d (process_nlp_rules text) ->
  device d = Some dev ->
  exists k target,
    kind_of dev = Some k
    /\ Agents.maps_to k (action d) = Some target
    /\ In target (states_of k)
    /\ normalize_action_to_state (JStr dev) (JStr (action d)) = JStr target.
Proof.
  intros Hin Hdev.
  apply process_nlp_rules_range in Hin. cbn [In] in Hin.
  destruct Hin as [<-|[<-|[<-|[<-|[<-|[<-|[<-|[]]]]]]]];
    try discriminate Hdev; injection Hdev as <-.
  - exists Agents.DoorLock, "unlocked". repeat split; cbn; auto.
  - exists Agents.DoorLock, "locked". repeat split; cbn; auto.
  - exists Agents.AlarmSystem, "disarmed". repeat split; cbn; auto.
  - exists Agents.AlarmSystem, "armed". repeat split; cbn; auto.
  - exists Agents.MotionSensor, "active". repeat split; cbn; auto.
  - exists Agents.MotionSensor, "inactive". repeat split; cbn; auto.
Qed.

(** [X11] The normalized action of every directive of the interpreter is
    the state to which the agent of that device maps the command: what the
    controller would show is what the device will report. *)
Theorem normalized_directive_is_agent_state
  (text dev : string) (d : directive) :
  In d (process_nlp_rules (lower text)) ->
  device d = Some dev ->
  process_nlp (JStr text) = inl (process_nlp_rules (lower text))
  /\ exists k target,
      kind_of dev = Some k
      /\ Agents.maps_to k (action d) = Some target
      /\ In target (states_of k)
      /\ normalize_action_to_state (JStr dev) (JStr (action d)) = JStr target.
Proof.
  intros Hin Hdev. split; [apply process_nlp_str|].
  exact (directive_target (lower text) dev d Hin Hdev).
Qed.

Lemma normalized_directive_is_agent_state_witness :
  exists k target,
    kind_of "door_lock_1" = Some k
    /\ Agents.maps_to k "unlock" = Some target
    /\ In target (states_of k)
    /\ normalize_action_to_state (JStr "door_lock_1") (JStr "unlock")
       = JStr target.
Proof.
  destruct (normalized_directive_is_agent_state "unlock the front door"
              "door_lock_1" unlock_door) as [_ H];
    [vm_compute; left; reflexivity | reflexivity | exact H].
Defined.

End HandlerMore.

(** ** More on the device-state store *)

Module StoreMore.

Import App Rules Flows Store.

Lemma set_state_absent (k : string) (v : json) (states : store) :
  existsb (fun e => fst e =? k) states = false -> set_state k v states = states.
Proof.
  induction states as [|[k' e] rest IH]; [reflexivity|].
  cbn [existsb set_state fst]. intros H.
  apply orb_false_iff in H as [Hk Hrest]. rewrite Hk. now rewrite (IH Hrest).
Qed.

(** The store a status message leaves. *)
Lemma on_message_store (states : store) (msg : message) :
  fst (fst (on_message states msg))
  = match msg with
    | Json _ (JObj members) =>
        match dict_get "device_id" members with
        | JStr k => set_state k (dict_get "state" members) states
        | _ => states
        end
    | _ => states
    end.
Proof.
  destruct msg as [|payload|payload data]; try reflexivity.
  destruct data as [| | | | | |members]; try reflexivity.
  unfold on_message, on_message_try.
  destruct (dict_get "device_id" members) as [| | | |k| |]; try reflexivity.
  cbn [known].
  destruct (existsb (fun e => fst e =? k) states) eqn:Hk; [reflexivity|].
  cbn [fst]. now rewrite (set_state_absent _ _ _ Hk).
Qed.

Lemma shape_set_state (k : string) (v : json) (states : store) :
  shape (set_state k v states) = shape states.
Proof.
  induction states as [|[k' e] rest IH]; [reflexivity|].
  cbn [set_state]. destruct (k' =? k); [reflexivity|].
  unfold shape in *. cbn [map]. now rewrite IH.
Qed.

Lemma lookup_set_state_other (k k' : string) (v : json) (states : store) :
  k <> k' -> lookup k' (set_state k v states) = lookup k' states.
Proof.
  intros Hne. induction states as [|[k0 e] rest IH]; [reflexivity|].
  cbn [set_state lookup].
  destruct (String.eqb_spec k0 k) as [->|Hk0]; cbn [lookup].
  - apply String.eqb_neq in Hne. now rewrite Hne.
  - now rewrite IH.
Qed.

Lemma set_state_override (k : string) (v1 v2 : json) (states : store) :
  set_state k v2 (set_state k v1 states) = set_state k v2 states.
Proof.
  induction states as [|[k0 e] rest IH]; [reflexivity|].
  cbn [set_state]. destruct (k0 =? k) eqn:Hk; cbn [set_state]; rewrite Hk.
  - reflexivity.
  - now rewrite IH.
Qed.

Lemma set_state_swap (k1 k2 : string) (v1 v2 : json) (states : store) :
  k1 <> k2 ->
  set_state k1 v1 (set_state k2 v2 states)
  = set_state k2 v2 (set_state k1 v1 states).
Proof.
  intros Hne. induction states as [|[k0 e] rest IH]; [reflexivity|].
  cbn [set_state].
  destruct (k0 =? k2) eqn:H2; destruct (k0 =? k1) eqn:H1;
    cbn [set_state]; rewrite ?H1, ?H2; try reflexivity.
  - apply String.eqb_eq in H1, H2. congruence.
  - now rewrite IH.
Qed.

(** [X12] The store never gains, loses, renames or reorders a device:
    whatever messages the status topic carries, the ids and names of the
    store stay as they were. *)
Theorem store_shape_kept (states : store) (msgs : list message) :
  shape (receive_all states msgs) = shape states.
Proof.
  revert states. induction msgs as [|msg rest IH]; intros states;
    [reflexivity|].
  cbn [receive_all]. rewrite IH, on_message_store.
  destruct msg as [|payload|payload data]; try reflexivity.
  destruct data as [| | | | | |members]; try reflexivity.
  destruct (dict_get "device_id" members); try reflexivity.
  apply shape_set_state.
Qed.

(** [X13] A status message touches no device but the one it names. *)
Theorem other_devices_untouched
  (states : store) (msg : message) (k : string) :
  target_id msg <> Some k ->
  lookup k (fst (fst (on_message states msg))) = lookup k states.
Proof.
  intros Hne. rewrite on_message_store.
  destruct msg as [|payload|payload data]; try reflexivity.
  destruct data as [| | | | | |members]; try reflexivity.
  cbn [target_id] in Hne.
  destruct (dict_get "device_id" members) as [| | | |k0| |]; try reflexivity.
  apply lookup_set_state_other. congruence.
Qed.

Lemma other_devices_untouched_witness :
  lookup "alarm_system"
    (fst (fst (on_message device_states
                 (status_message "m" "door_lock_1" "unlocked"))))
  = Some (Entry "Alarm System" (JStr "disarmed")).
Proof.
  apply (other_devices_untouched device_states
           (status_message "m" "door_lock_1" "unlocked") "alarm_system").
  discriminate.
Defined.

(** [X14] The last status wins: of two status messages for the same device
    the store keeps only what the second says. *)
Theorem last_status_wins (states : store) (m1 m2 : message) (k : string) :
  target_id m1 = Some k ->
  target_id m2 = Some k ->
  receive_all states [m1; m2] = receive_all states [m2].
Proof.
  intros H1 H2. cbn [receive_all]. rewrite !on_message_store.
  destruct m1 as [|p1|p1 d1]; try discriminate H1.
  destruct d1 as [| | | | | |mem1]; try discriminate H1.
  destruct m2 as [|p2|p2 d2]; try discriminate H2.
  destruct d2 as [| | | | | |mem2]; try discriminate H2.
  cbn [target_id] in H1, H2.
  destruct (dict_get "device_id" mem1); try discriminate H1.
  destruct (dict_get "device_id" mem2); try discriminate H2.
  injection H1 as ->. injection H2 as ->.
  apply set_state_override.
Qed.

Lemma last_status_wins_witness :
  receive_all device_states
    [status_message "a" "alarm_system" "armed";
     status_message "b" "alarm_system" "disarmed"]
  = receive_all device_states [status_message "b" "alarm_system" "disarmed"].
Proof.
  apply (last_status_wins device_states _ _ "alarm_system"); reflexivity.
Defined.

(** [X15] Status messages for different devices can arrive in either
    order: the store at the end is the same. *)
Theorem different_devices_commute (states : store) (m1 m2 : message) :
  target_id m1 <> target_id m2 ->
  receive_all states [m1; m2] = receive_all states [m2; m1].
Proof.
  intros Hne. cbn [receive_all]. rewrite !on_message_store.
  destruct m1 as [|p1|p1 d1]; try reflexivity;
    try (destruct m2 as [|p2|p2 d2]; try reflexivity;
         destruct d2; try reflexivity;
         now destruct (dict_get "device_id" members)).
  destruct d1 as [| | | | | |mem1];
    try (destruct m2 as [|p2|p2 d2]; try reflexivity;
         destruct d2; try reflexivity;
         now destruct (dict_get "device_id" members)).
  destruct m2 as [|p2|p2 d2];
    try (now destruct (dict_get "device_id" mem1)).
  destruct d2 as [| | | | | |mem2];
    try (now destruct (dict_get "device_id" mem1)).
  cbn [target_id] in Hne.
  destruct (dict_get "device_id" mem1) as [| | | |k1| |];
    destruct (dict_get "device_id" mem2) as [| | | |k2| |]; try reflexivity.
  apply set_state_swap. congruence.
Qed.

Lemma different_devices_commute_witness :
  receive_all device_states
    [status_message "a" "alarm_system" "armed";
     status_message "b" "door_lock_1" "unlocked"]
  = receive_all device_states
      [status_message "b" "door_lock_1" "unlocked";
       status_message "a" "alarm_system" "armed"].
Proof.
  apply (different_devices_commute device_states); discriminate.
Defined.

End StoreMore.

(** ** More on the device agents *)

Module AgentsMore.

Import Devices Agents Flows AgentFacts.

Lemma existsb_eqb_in (s : string) (l : list string) :
  existsb (String.eqb s) l = true <-> In s l.
Proof.
  rewrite existsb_exists. split.
  - intros [x [Hin Heq]]. apply String.eqb_eq in Heq. now subst.
  - intros Hin. exists s. split; [exact Hin | apply String.eqb_refl].
Qed.

Lemma well_formed_spec (w : world) :
  well_formed w = true
  <-> forall k, device_id (get_agent w k) = key_of k
                /\ In (state (get_agent w k)) (states_of k).
Proof.
  unfold well_formed. rewrite !andb_true_iff, !String.eqb_eq, !existsb_eqb_in.
  split.
  - intros [[[[[H1 H2] H3] H4] H5] H6] k. destruct k; cbn; auto.
  - intros H.
    pose proof (H DoorLock) as [H1 H2].
    pose proof (H AlarmSystem) as [H3 H4].
    pose proof (H MotionSensor) as [H5 H6].
    cbn in *. auto 10.
Qed.

Lemma settle_facts (self : agent) (t : string) :
  device_id (fst (settle self t)) = device_id self
  /\ state (fst (settle self t)) = t
  /\ ((fst (settle self t) = self
       /\ status_events (snd (settle self t)) = [])
      \/ (state self <> t
          /\ status_events (snd (settle self t)) = [(device_id self, t)])).
Proof.
  unfold settle. destruct (String.eqb_spec (state self) t) as [E|E]; cbn; auto.
Qed.

Lemma settle_again (self : agent) (t : string) :
  fst (settle (fst (settle self t)) t) = fst (settle self t)
  /\ status_events (snd (settle (fst (settle self t)) t)) = [].
Proof.
  destruct (settle_facts self t) as [_ [Hst _]].
  generalize dependent (fst (settle self t)). intros a Hst.
  unfold settle. rewrite Hst, String.eqb_refl. now split.
Qed.

Lemma get_set_agent (w : world) (k : kind) (a : agent) :
  get_agent (set_agent w k a) k = a.
Proof. now destruct k. Qed.

Lemma get_set_agent_other (w : world) (k k' : kind) (a : agent) :
  k <> k' -> get_agent (set_agent w k a) k' = get_agent w k'.
Proof. destruct k, k'; intros H; try reflexivity; now contradiction H. Qed.

Lemma set_set_agent (w : world) (k : kind) (a b : agent) :
  set_agent (set_agent w k a) k b = set_agent w k b.
Proof. now destruct k. Qed.

Lemma set_get_agent (w : world) (k : kind) :
  set_agent w k (get_agent w k) = w.
Proof. now destruct w, k. Qed.

Lemma kind_of_key (dev : string) (k : kind) :
  kind_of dev = Some k <-> dev = key_of k.
Proof.
  unfold kind_of. split.
  - destruct (String.eqb_spec dev "door_lock_1") as [->|_];
      [now intros [= <-]|].
    destruct (String.eqb_spec dev "alarm_system") as [->|_];
      [now intros [= <-]|].
    destruct (String.eqb_spec dev "motion_sensor_1") as [->|_];
      [now intros [= <-] | discriminate].
  - intros ->. now destruct k.
Qed.

Lemma agent_of_kind (w : world) (dev : string) (k : kind) :
  kind_of dev = Some k -> agent_of w dev = Some (get_agent w k).
Proof. unfold agent_of. intros ->. now destruct k. Qed.

Section WithStr.

Variable str : json -> string.

(** A command decides, whatever the agent is, the state it asks for, if
    any; the agent is then settled on that state. *)
Lemma process_command_decides (k : kind) (v : json) :
  exists (target : option string) (noise : agent -> list effect),
    (forall t, target = Some t -> In t (states_of k))
    /\ (forall self, status_events (noise self) = [])
    /\ forall self,
        process_command str k self v
        = match target with
          | Some t => settle self t
          | None => (self, noise self)
          end.
Proof.
  destruct k; cbn [process_command states_of].
  - unfold DoorLock_process_command.
    destruct (in_strings v ["lock"; "unlock"]).
    + exists (Some (if eq_str v "lock" then "locked" else "unlocked")),
        (fun _ => []).
      repeat split.
      * intros t [= <-]. destruct (eq_str v "lock"); cbn; auto.
      * intros self. unfold settle.
        now destruct (state self =? (if eq_str v "lock" then "locked" else "unlocked")).
    + exists None, (fun _ => []). now repeat split.
  - unfold AlarmSystem_process_command.
    destruct (in_strings v ["armed"; "disarmed"]) eqn:Hin;
      [|exists None, (fun _ => []); now repeat split].
    destruct v as [| | | |c| |]; try discriminate Hin.
    exists (Some c), (fun _ => []). repeat split.
    + intros t [= <-]. cbn [in_strings] in Hin. now apply existsb_eqb_in.
    + intros self. unfold settle. now destruct (state self =? c).
  - unfold MotionSensor_process_command. cbv zeta.
    set (cmd := match v with
                | JStr c => lower c
                | _ => if truthy v then lower (str v) else lower EmptyString
                end).
    destruct (existsb (String.eqb cmd) ["active"; "activate"; "on"; "enable"]).
    { exists (Some "active"), (fun _ => []). repeat split.
      - intros t [= <-]. cbn; auto.
      - intros self. unfold settle. now destruct (state self =? "active"). }
    destruct (existsb (String.eqb cmd)
                ["inactive"; "deactivate"; "off"; "disable"]).
    { exists (Some "inactive"), (fun _ => []). repeat split.
      - intros t [= <-]. cbn; auto.
      - intros self. unfold settle. now destruct (state self =? "inactive"). }
    exists None, (fun self => [Stdout (UnsupportedCommand (device_id self) v)]).
    now repeat split.
Qed.

(** What a command does to an agent and what it emits. *)
Lemma process_command_effect (k : kind) (self : agent) (v : json) :
  device_id (fst (process_command str k self v)) = device_id self
  /\ ((fst (process_command str k self v) = self
       /\ status_events (snd (process_command str k self v)) = [])
      \/ (state (fst (process_command str k self v)) <> state self
          /\ status_events (snd (process_command str k self v))
             = [(device_id self, state (fst (process_command str k self v)))])).
Proof.
  destruct (process_command_decides k v) as [target [noise [_ [Hnoise Hrun]]]].
  rewrite Hrun. destruct target as [t|].
  - destruct (settle_facts self t) as [Hid [Hst [[Hsame Hev] | [Hne Hev]]]].
    + split; [exact Hid|]. left. now split.
    + split; [exact Hid|]. right. rewrite Hst. split; [congruence | exact Hev].
  - cbn [fst snd]. split; [reflexivity|]. left. split; [reflexivity|apply Hnoise].
Qed.

(** [X16] A state never changes unannounced, and nothing is announced
    without a change: for every agent and every command, either the agent
    stays as it is and emits no Status Event, or its state changes and it
    emits exactly one Status Event, which carries its id and its new state.
    The id of the agent never changes. *)
Theorem change_iff_status_event (k : kind) (self : agent) (v : json) :
  let r := process_command str k self v in
  device_id (fst r) = device_id self
  /\ ((fst r = self /\ status_events (snd r) = [])
      \/ (state (fst r) <> state self
          /\ status_events (snd r) = [(device_id self, state (fst r))])).
Proof.
  exact (process_command_effect k self v).
Qed.

(** The receive loop on a message for a device of the dict. *)
Lemma on_message_dispatch (w : world) (payload : string)
      (members : list (string * json)) (dev : string) (k : kind) :
  dict_get "device_id" members = JStr dev ->
  kind_of dev = Some k ->
  let r := process_command str k (get_agent w k) (dict_get "command" members) in
  on_message str w (Json payload (JObj members))
  = (set_agent w k (fst r), Stdout (ReceivedCommand payload) :: snd r, Completed).
Proof.
  intros Hid Hk r. subst r. apply kind_of_key in Hk. subst dev.
  unfold on_message, on_message_try. rewrite Hid.
  destruct k; cbn [key_of String.eqb Ascii.eqb Bool.eqb process_command
                   get_agent set_agent].
  - now destruct (DoorLock_process_command (door_lock_1 w)
                    (dict_get "command" members)).
  - now destruct (AlarmSystem_process_command (alarm_system w)
                    (dict_get "command" members)).
  - now destruct (MotionSensor_process_command str (motion_sensor_1 w)
                    (dict_get "command" members)).
Qed.

(** The receive loop on any other message. *)
Lemma on_message_quiet (w : world) (msg : message) :
  (forall dev, target_id msg = Some dev -> kind_of dev = None) ->
  fst (fst (on_message str w msg)) = w
  /\ status_events (snd (fst (on_message str w msg))) = [].
Proof.
  intros Hnone.
  destruct msg as [|payload|payload data]; try (now split).
  destruct data as [| | | | | |members]; try (now split).
  unfold on_message, on_message_try. cbn [target_id] in Hnone.
  destruct (dict_get "device_id" members) as [| | | |dev| |]; try (now split).
  specialize (Hnone dev eq_refl). unfold kind_of in Hnone.
  destruct (dev =? "door_lock_1"); [discriminate|].
  destruct (dev =? "alarm_system"); [discriminate|].
  destruct (dev =? "motion_sensor_1"); [discriminate|].
  now split.
Qed.

(** Every message is of one of the two sorts. *)
Lemma on_message_cases (w : world) (msg : message) :
  (fst (fst (on_message str w msg)) = w
   /\ status_events (snd (fst (on_message str w msg))) = [])
  \/ exists payload members dev k,
      msg = Json payload (JObj members)
      /\ dict_get "device_id" members = JStr dev
      /\ kind_of dev = Some k.
Proof.
  destruct msg as [|payload|payload data];
    try (left; apply on_message_quiet; intros dev H; discriminate H).
  destruct data as [| | | | | |members];
    try (left; apply on_message_quiet; intros dev H; discriminate H).
  destruct (dict_get "device_id" members) as [| | | |dev| |] eqn:Hid;
    try (left; apply on_message_quiet; intros dev' H; cbn in H;
         rewrite Hid in H; discriminate H).
  destruct (kind_of dev) as [k|] eqn:Hk.
  - right. now exists payload, members, dev, k.
  - left. apply on_message_quiet. intros dev' H. cbn in H.
    rewrite Hid in H. now injection H as <-.
Qed.

(** [X17] A command message delivered twice acts once: for every message,
    the second delivery leaves the agents as the first left them and emits
    no Status Event. *)
Theorem second_delivery_is_silent (w : world) (msg : message) :
  let w1 := fst (fst (on_message str w msg)) in
  fst (fst (on_message str w1 msg)) = w1
  /\ status_events (snd (fst (on_message str w1 msg))) = [].
Proof.
  cbv zeta.
  destruct (on_message_cases w msg)
    as [[Hw Hev] | [payload [members [dev [k [-> [Hid Hk]]]]]]].
  - rewrite Hw. now split.
  - rewrite (on_message_dispatch w payload members dev k Hid Hk). cbn [fst].
    rewrite (on_message_dispatch _ payload members dev k Hid Hk).
    cbn [fst snd]. rewrite get_set_agent, set_set_agent.
    destruct (process_command_decides k (dict_get "command" members))
      as [target [noise [_ [Hnoise Hrun]]]].
    rewrite !Hrun. destruct target as [t|].
    + destruct (settle_again (get_agent w k) t) as [-> Hev].
      split; [reflexivity | exact Hev].
    + cbn [fst snd]. split; [reflexivity | apply Hnoise].
Qed.

End WithStr.

End AgentsMore.

(** ** The agents and the controller together *)

Module SystemMore.

Import Devices Agents Flows AgentFacts AgentsMore.

Lemma simulate_motion_step_frame (w : world) (seconds k : Z) :
  door_lock_1 (fst (simulate_motion_step w seconds k)) = door_lock_1 w
  /\ alarm_system (fst (simulate_motion_step w seconds k)) = alarm_system w
  /\ device_id (motion_sensor_1 (fst (simulate_motion_step w seconds k)))
     = device_id (motion_sensor_1 w)
  /\ (state (motion_sensor_1 (fst (simulate_motion_step w seconds k)))
      = state (motion_sensor_1 w)
      \/ In (state (motion_sensor_1 (fst (simulate_motion_step w seconds k))))
            (states_of MotionSensor)).
Proof.
  unfold simulate_motion_step, at_point.
  destruct (simulation w);
    try destruct (state (alarm_system w) =? "armed");
    try destruct (state (motion_sensor_1 w) =? "inactive");
    try destruct (below_0_3 k);
    cbn; repeat split; auto.
Qed.

Section WithStr.

Variable str : json -> string.

Lemma step_deliver (w : world) (msg : message) :
  step str w (Deliver msg)
  = (fst (fst (on_message str w msg)), snd (fst (on_message str w msg))).
Proof. cbn [step]. now destruct (on_message str w msg) as [[w' out] o]. Qed.

Lemma process_command_keeps (k : kind) (self : agent) (v : json) :
  device_id (fst (process_command str k self v)) = device_id self
  /\ (In (state self) (states_of k) ->
      In (state (fst (process_command str k self v))) (states_of k)).
Proof.
  destruct (process_command_decides str k v)
    as [target [noise [Hin [_ Hrun]]]].
  rewrite Hrun. destruct target as [t|]; [|now split].
  destruct (settle_facts self t) as [Hid [Hst _]].
  split; [exact Hid|]. intros _. rewrite Hst. now apply Hin.
Qed.

Lemma step_well_formed (w : world) (ev : event) :
  well_formed w = true -> well_formed (fst (step str w ev)) = true.
Proof.
  intros Hwf. destruct ev as [msg | seconds k].
  - rewrite step_deliver. cbn [fst].
    destruct (on_message_cases str w msg)
      as [[-> _] | [payload [members [dev [k [-> [Hid Hk]]]]]]];
      [exact Hwf|].
    rewrite (on_message_dispatch str w payload members dev k Hid Hk).
    cbn [fst]. apply well_formed_spec. intros k'.
    apply well_formed_spec with (k := k') in Hwf as Hk'.
    apply well_formed_spec with (k := k) in Hwf as [Hkid Hkst].
    destruct (process_command_keeps k (get_agent w k)
                (dict_get "command" members)) as [Hid' Hst'].
    destruct k, k'; cbn [get_agent set_agent door_lock_1 alarm_system
                         motion_sensor_1] in *;
      try exact Hk'; (split; [congruence | now apply Hst']).
  - cbn [step]. apply well_formed_spec. intros k'.
    apply well_formed_spec with (k := k') in Hwf as Hk'.
    destruct (simulate_motion_step_frame w seconds k)
      as [Hd [Ha [Hid Hst]]].
    destruct k'; cbn [get_agent key_of] in *.
    + now rewrite Hd.
    + now rewrite Ha.
    + split; [now rewrite Hid|]. destruct Hst as [->|H]; [apply Hk'|exact H].
Qed.

(** [X18] The agents stay well formed: from a world in which every agent
    carries the id of its key and a state of its kind, every run of the
    process, whatever messages arrive and whatever the simulation draws,
    passes only through such worlds and ends in one. *)
Theorem run_keeps_well_formed (w : world) (evs : list event) :
  well_formed w = true ->
  well_formed (snd (run str w evs)) = true
  /\ Forall (fun entry => well_formed (fst (fst entry)) = true)
            (fst (run str w evs)).
Proof.
  revert w. induction evs as [|ev rest IH]; intros w Hwf.
  - cbn. split; [exact Hwf | constructor].
  - cbn [run].
    pose proof (step_well_formed w ev Hwf) as Hstep.
    destruct (step str w ev) as [w' out]. cbn [fst] in Hstep.
    destruct (IH w' Hstep) as [Hend Htrace].
    destruct (run str w' rest) as [trace final]. cbn [fst snd] in *.
    split; [exact Hend|]. constructor; [exact Hwf | exact Htrace].
Qed.

(** [X19] Status Events tell the truth, and the store follows them.  In
    a well-formed world, every Status Event that a step emits, be it for a
    command or by the simulation, carries the state in which its agent is
    after the step; when the controller applies the event, the state it
    stores for that device is the state of the agent. *)
Theorem status_events_truthful (w : world) (ev : event) (id st : string) :
  well_formed w = true ->
  In (id, st) (status_events (snd (step str w ev))) ->
  exists a,
    agent_of (fst (step str w ev)) id = Some a
    /\ state a = st
    /\ forall (states : App.store) (e : App.device_entry) (payload : string),
        App.lookup id states = Some e ->
        App.lookup id
          (fst (fst (App.on_message states (status_message payload id st))))
        = Some (App.Entry (App.name e) (JStr (state a))).
Proof.
  intros Hwf Hin.
  assert (Hstore : forall a, state a = st ->
    forall (states : App.store) (e : App.device_entry) (payload : string),
      App.lookup id states = Some e ->
      App.lookup id
        (fst (fst (App.on_message states (status_message payload id st))))
      = Some (App.Entry (App.name e) (JStr (state a)))).
  { intros a Ha states e payload Hlook. unfold status_message.
    rewrite (Store.on_message_known states payload
               [("device_id", JStr id); ("state", JStr st)] id e Hlook eq_refl).
    cbn [fst]. rewrite Ha.
    exact (Store.lookup_set_state id (JStr st) states e Hlook). }
  destruct ev as [msg | seconds k].
  - rewrite step_deliver in *. cbn [fst snd] in *.
    destruct (on_message_cases str w msg)
      as [[_ Hev] | [payload [members [dev [k [-> [Hid Hk]]]]]]].
    { rewrite Hev in Hin. destruct Hin. }
    rewrite (on_message_dispatch str w payload members dev k Hid Hk) in *.
    cbn [fst snd status_events flat_map app] in *.
    apply well_formed_spec with (k := k) in Hwf as [Hkid _].
    destruct (process_command_effect str k (get_agent w k)
                (dict_get "command" members)) as [_ [[_ Hev] | [_ Hev]]];
      fold (status_events (snd (process_command str k (get_agent w k)
                                  (dict_get "command" members)))) in Hin;
      rewrite Hev in Hin; [destruct Hin|].
    destruct Hin as [[= <- <-] | []].
    exists (fst (process_command str k (get_agent w k)
                   (dict_get "command" members))).
    rewrite Hkid.
    rewrite (agent_of_kind _ (key_of k) k) by now apply kind_of_key.
    rewrite get_set_agent. repeat split. rewrite <- Hkid. now apply Hstore.
  - cbn [step] in *.
    apply well_formed_spec with (k := MotionSensor) in Hwf as [Hkid _].
    cbn [get_agent key_of] in Hkid.
    unfold simulate_motion_step, at_point in *.
    destruct (simulation w);
      try destruct (state (alarm_system w) =? "armed");
      try destruct (state (motion_sensor_1 w) =? "inactive");
      try destruct (below_0_3 k);
      cbn in Hin; try (now destruct Hin);
      destruct Hin as [[= <- <-] | []];
      rewrite Hkid in Hstore |- *; eexists;
      (split; [reflexivity|]); (split; [reflexivity|]); now apply Hstore.
Qed.

(** [X20] A delivered message changes no agent but the one it names and
    never moves the simulation thread; a step of the simulation changes
    neither the door lock nor the alarm. *)
Theorem steps_touch_one_agent (w : world) :
  (forall (msg : message),
      simulation (fst (fst (on_message str w msg))) = simulation w
      /\ forall k, target_id msg <> Some (key_of k) ->
                   get_agent (fst (fst (on_message str w msg))) k
                   = get_agent w k)
  /\ (forall (seconds k : Z),
      door_lock_1 (fst (simulate_motion_step w seconds k)) = door_lock_1 w
      /\ alarm_system (fst (simulate_motion_step w seconds k))
         = alarm_system w).
Proof.
  split.
  - intros msg.
    destruct (on_message_cases str w msg)
      as [[-> _] | [payload [members [dev [k0 [-> [Hid Hk]]]]]]];
      [now split|].
    rewrite (on_message_dispatch str w payload members dev k0 Hid Hk).
    cbn [fst]. split; [now destruct k0|].
    intros k Hne. cbn [target_id] in Hne. rewrite Hid in Hne.
    apply kind_of_key in Hk. subst dev.
    apply get_set_agent_other. intros ->. now apply Hne.
  - intros seconds k.
    destruct (simulate_motion_step_frame w seconds k) as [Hd [Ha _]].
    now split.
Qed.

Lemma device_commands_in (results : list App.directive) (dev cmd : string) :
  In (dev, cmd) (device_commands results) ->
  exists d, In d results /\ App.device d = Some dev /\ App.action d = cmd.
Proof.
  unfold device_commands. rewrite in_flat_map. intros [d [Hd Hin]].
  exists d. split; [exact Hd|].
  destruct (App.device d) as [dev'|]; [|destruct Hin].
  destruct (App.actionable d); [|destruct Hin].
  destruct Hin as [[= -> ->] | []]. now split.
Qed.

(** [X21] From the utterance to the device.  Every command that the
    handler publishes for a text, once delivered to well-formed agents,
    leaves the agent it names in the state that
    [normalize_action_to_state] gives for it, and the Status Events it
    causes, if any, are for that device and carry that state. *)
Theorem published_command_reaches_state
  (states : App.store) (text payload dev cmd : string) (w : world) :
  well_formed w = true ->
  In (dev, cmd)
     (Rules.published
        (fst (App.handle_voice_command states []
                (JObj [("text", JStr text)])))) ->
  let r := on_message str w (command_message payload dev cmd) in
  exists a,
    agent_of (fst (fst r)) dev = Some a
    /\ JStr (state a) = App.normalize_action_to_state (JStr dev) (JStr cmd)
    /\ forall id st,
        In (id, st) (status_events (snd (fst r))) -> id = dev /\ st = state a.
Proof.
  intros Hwf Hpub r. subst r.
  rewrite (HandlerMore.handler_publishes states [] [("text", JStr text)]
             text eq_refl (Forall_nil _)) in Hpub.
  apply device_commands_in in Hpub as [d [Hd [Hdev <-]]].
  destruct (HandlerMore.directive_target (lower text) dev d Hd Hdev)
    as [k [target [Hk [Hmaps [_ Hnorm]]]]].
  unfold command_message.
  rewrite (on_message_dispatch str w payload
             [("device_id", JStr dev); ("command", JStr (App.action d))]
             dev k eq_refl Hk).
  cbn [fst snd].
  change (dict_get "command"
            [("device_id", JStr dev); ("command", JStr (App.action d))])
    with (JStr (App.action d)).
  rewrite (process_command_accepted str k (get_agent w k) (App.action d)
             target Hmaps).
  rewrite (agent_of_kind _ dev k Hk), get_set_agent.
  apply well_formed_spec with (k := k) in Hwf as [Hkid _].
  apply kind_of_key in Hk. subst dev.
  destruct (settle_facts (get_agent w k) target)
    as [_ [Hst [[_ Hev] | [_ Hev]]]].
  - exists (fst (settle (get_agent w k) target)).
    split; [reflexivity|]. split; [now rewrite Hst, Hnorm|].
    intros id st Hin. cbn [status_events flat_map app] in Hin.
    fold (status_events (snd (settle (get_agent w k) target))) in Hin.
    rewrite Hev in Hin. destruct Hin.
  - exists (fst (settle (get_agent w k) target)).
    split; [reflexivity|]. split; [now rewrite Hst, Hnorm|].
    intros id st Hin. cbn [status_events flat_map app] in Hin.
    fold (status_events (snd (settle (get_agent w k) target))) in Hin.
    rewrite Hev, Hkid in Hin. destruct Hin as [[= <- <-] | []].
    now split.
Qed.

End WithStr.

Lemma steps_touch_one_agent_witness :
  get_agent
    (fst (fst (on_message plain_str devices
                 (command_message "m" "door_lock_1" "unlock"))))
    AlarmSystem
  = Agent "alarm_system" "disarmed".
Proof.
  destruct (steps_touch_one_agent plain_str devices) as [H _].
  destruct (H (command_message "m" "door_lock_1" "unlock")) as [_ Hk].
  apply (Hk AlarmSystem). discriminate.
Defined.

Lemma published_command_reaches_state_witness :
  exists a,
    agent_of
      (fst (fst (on_message plain_str devices
                   (command_message "m" "alarm_system" "armed"))))
      "alarm_system" = Some a
    /\ JStr (state a)
       = App.normalize_action_to_state (JStr "alarm_system") (JStr "armed")
    /\ forall id st,
        In (id, st)
           (status_events
              (snd (fst (on_message plain_str devices
                           (command_message "m" "alarm_system" "armed"))))) ->
        id = "alarm_system" /\ st = state a.
Proof.
  apply (published_command_reaches_state plain_str App.device_states
           "arm the alarm" "m" "alarm_system" "armed" devices);
    [reflexivity | vm_compute; left; reflexivity].
Defined.

Lemma run_keeps_well_formed_witness :
  well_formed
    (snd (run plain_str devices
            [Deliver (command_message "m" "alarm_system" "armed");
             Simulate 10 0; Simulate 10 0; Simulate 10 0; Simulate 10 0;
             Simulate 10 0; Simulate 10 0;
             Deliver (command_message "m" "motion_sensor_1" "inactive");
             Simulate 10 0]))
  = true.
Proof.
  destruct (run_keeps_well_formed plain_str devices
              [Deliver (command_message "m" "alarm_system" "armed");
               Simulate 10 0; Simulate 10 0; Simulate 10 0; Simulate 10 0;
               Simulate 10 0; Simulate 10 0;
               Deliver (command_message "m" "motion_sensor_1" "inactive");
               Simulate 10 0] eq_refl) as [H _].
  exact H.
Defined.

Lemma status_events_truthful_witness :
  exists a,
    agent_of (fst (step plain_str devices
                     (Deliver (command_message "m" "door_lock_1" "unlock"))))
             "door_lock_1" = Some a
    /\ state a = "unlocked".
Proof.
  destruct (status_events_truthful plain_str devices
              (Deliver (command_message "m" "door_lock_1" "unlock"))
              "door_lock_1" "unlocked" eq_refl) as [a [Ha [Hst _]]].
  - cbn. left. reflexivity.
  - now exists a.
Defined.

(** [X22] The start of the agents.  The agents are made in the states the
    controller starts with, and each publishes its state at once: the
    alarm first, then the door lock, then the motion sensor.  Applied to
    any store with the three devices, whatever states it held, these
    Status Events leave it equal to the initial store of the controller. *)
Theorem startup_statuses_set_the_store (states : App.store) (payload : string) :
  shape states = shape App.device_states ->
  fst main = devices
  /\ status_events (snd main)
     = [("alarm_system", "disarmed"); ("door_lock_1", "locked");
        ("motion_sensor_1", "inactive")]
  /\ receive_all states
       (map (fun ev => status_message payload (fst ev) (snd ev))
            (status_events (snd main)))
     = App.device_states.
Proof.
  intros Hshape. split; [reflexivity|]. split; [reflexivity|].
  destruct states as [|[k1 [n1 s1]] [|[k2 [n2 s2]] [|[k3 [n3 s3]] [|]]]];
    try discriminate Hshape.
  cbn in Hshape. injection Hshape as -> -> -> -> -> ->.
  reflexivity.
Qed.

Lemma startup_statuses_set_the_store_witness :
  receive_all
    [("door_lock_1", App.Entry "Front Door Lock" JNull);
     ("alarm_system", App.Entry "Alarm System" (JStr "armed"));
     ("motion_sensor_1", App.Entry "Living Room Sensor" (JStr "active"))]
    (map (fun ev => status_message "m" (fst ev) (snd ev))
         (status_events (snd main)))
  = App.device_states.
Proof.
  destruct (startup_statuses_set_the_store
              [("door_lock_1", App.Entry "Front Door Lock" JNull);
               ("alarm_system", App.Entry "Alarm System" (JStr "armed"));
               ("motion_sensor_1",
                App.Entry "Living Room Sensor" (JStr "active"))]
              "m" eq_refl) as [_ [_ H]].
  exact H.
Defined.

End SystemMore.

(** ** The autonomous motion simulation *)

Module Simulation.

Import Devices Agents Flows AgentsMore SystemMore.


Section WithStr.

Variable str : json -> string.









End WithStr.


End Simulation.
